(** * NormateAI results experience: polling, perspective visibility,
    PDF export and the chat sidebar.

  A shallow embedding of the client-side controller code
  ([lib/api.ts], the results page and [ChatSidebar]) together with the
  properties of its polling loop, visibility table, export pagination and
  chat transcript. *)

From Stdlib Require Import String Ascii.
From Stdlib Require Import List Bool Arith NArith ZArith QArith Qround Lia Lqa.
Import ListNotations.

Local Close Scope Q_scope.
Local Open Scope nat_scope.

(* ===================================================================== *)
(** ** JavaScript strings and values *)
(* ===================================================================== *)

Module Js.

(** A JavaScript string is a sequence of UTF-16 code units. *)
Definition jsstring := list N.

(** String literals of the source (all of them are ASCII). *)
Definition lit (s : string) : jsstring :=
  map N_of_ascii (list_ascii_of_string s).

(** ECMAScript [WhiteSpace] and [LineTerminator] code points, the ones
    [String.prototype.trim] strips.  All live in the basic plane. *)
Definition isWhiteSpace (c : N) : bool :=
  ((9 <=? c) && (c <=? 13) || (c =? 32) || (c =? 160) || (c =? 5760)
   || (8192 <=? c) && (c <=? 8202)
   || (c =? 8232) || (c =? 8233) || (c =? 8239) || (c =? 8287)
   || (c =? 12288) || (c =? 65279))%N.

Fixpoint trimStart (s : jsstring) : jsstring :=
  match s with
  | [] => []
  | c :: t => if isWhiteSpace c then trimStart t else s
  end.

Definition trimEnd (s : jsstring) : jsstring := rev (trimStart (rev s)).

Definition trim (s : jsstring) : jsstring := trimEnd (trimStart s).

(** Truthiness of a string: every string but the empty one. *)
Definition truthy_string (s : jsstring) : bool :=
  match s with [] => false | _ :: _ => true end.

(** A string that is empty or made of white space only. *)
Definition blank (s : jsstring) : bool := forallb isWhiteSpace s.

Fixpoint startsWith (needle hay : jsstring) : bool :=
  match needle, hay with
  | [], _ => true
  | _ :: _, [] => false
  | a :: n', b :: h' => (a =? b)%N && startsWith n' h'
  end.

(** [hay.includes(needle)] *)
Fixpoint includes (hay needle : jsstring) : bool :=
  startsWith needle hay ||
  match hay with
  | [] => false
  | _ :: h' => includes h' needle
  end.

(** The values the visibility flags of the results page can take:
    [a && b] yields [a] itself when [a] is falsy. *)
Inductive value : Type :=
| VUndefined
| VNull
| VBool (b : bool)
| VObject
| VArray (length : nat).

Definition truthy (v : value) : bool :=
  match v with
  | VUndefined | VNull => false
  | VBool b => b
  | VObject | VArray _ => true
  end.

(** [a && b] *)
Definition and_ (a b : value) : value := if truthy a then b else a.

End Js.

(* ===================================================================== *)
(** ** components/ChatSidebar.tsx *)
(* ===================================================================== *)

Module ChatSidebar.
Import Js.

Inductive Role : Type := user | assistant.

Record Message : Type := { role : Role; content : jsstring }.

Definition introMessage : Message :=
  {| role := assistant;
     content := lit "I can help you explore this analysis further. Ask me anything about the findings, methodology, or next steps." |}.

Definition fallbackMessage : Message :=
  {| role := assistant;
     content := lit "Sorry, I couldn't process that request. Please try again in a moment." |}.

(** The component state ([useState] cells and the [hasHandledInitial]
    ref) and two observation logs: the questions handed to
    [chatWithAnalysis], oldest first, and the questions the
    initial-question effect handed to [sendMessage]. *)
Record Session : Type := {
  messages : list Message;
  input : jsstring;
  loading : bool;
  hasHandledInitial : bool;
  requests : list jsstring;
  autoSent : list jsstring
}.

(** State of a freshly mounted sidebar. *)
Definition mount : Session :=
  {| messages := [introMessage];
     input := [];
     loading := false;
     hasHandledInitial := false;
     requests := [];
     autoSent := [] |}.

(** How the awaited [chatWithAnalysis] call settles. *)
Inductive ChatOutcome : Type :=
| Replied (message : jsstring)
| Rejected.

(** [sendMessage(text)] up to its [await]: the guard, the user message,
    the cleared input, the in-flight flag and the request. *)
Definition sendMessage (text : jsstring) (s : Session) : Session :=
  if negb (truthy_string (trim text)) || loading s then s
  else
    {| messages := messages s ++ [{| role := user; content := text |}];
       input := [];
       loading := true;
       hasHandledInitial := hasHandledInitial s;
       requests := requests s ++ [text];
       autoSent := autoSent s |}.

(** [sendMessage] after its [await]: the [try] continuation on a reply,
    the [catch] on a rejection, then the [finally]. *)
Definition sendMessage_resume (o : ChatOutcome) (s : Session) : Session :=
  let reply :=
    match o with
    | Replied m => {| role := assistant; content := m |}
    | Rejected => fallbackMessage
    end in
  {| messages := messages s ++ [reply];
     input := input s;
     loading := false;
     hasHandledInitial := hasHandledInitial s;
     requests := requests s;
     autoSent := autoSent s |}.

(** The effect on [[initialQuestion, isOpen]]. *)
Definition initialQuestionEffect (initialQuestion : option jsstring)
    (isOpen : bool) (s : Session) : Session :=
  match initialQuestion with
  | Some q =>
      if truthy_string q && isOpen && negb (hasHandledInitial s) then
        sendMessage q
          {| messages := messages s;
             input := input s;
             loading := loading s;
             hasHandledInitial := true;
             requests := requests s;
             autoSent := autoSent s ++ [q] |}
      else s
  | None => s
  end.

Definition setInput (v : jsstring) (s : Session) : Session :=
  {| messages := messages s;
     input := v;
     loading := loading s;
     hasHandledInitial := hasHandledInitial s;
     requests := requests s;
     autoSent := autoSent s |}.

Definition handleSend (s : Session) : Session := sendMessage (input s) s.

(** What can happen to a mounted sidebar.  A handler always runs against
    the latest committed render, so it reads the current [loading]. *)
Inductive Event : Type :=
| EffectRuns (initialQuestion : option jsstring) (isOpen : bool)
| Types (v : jsstring)
| PressesSend
| Settles (o : ChatOutcome).

Definition step (s : Session) (e : Event) : Session :=
  match e with
  | EffectRuns q o => initialQuestionEffect q o s
  | Types v => setInput v s
  | PressesSend => handleSend s
  | Settles o => if loading s then sendMessage_resume o s else s
  end.

Definition run (evs : list Event) (s : Session) : Session :=
  fold_left step evs s.

(** Question/answer turns laid out as transcript messages. *)
Definition turn (qa : jsstring * jsstring) : list Message :=
  [{| role := user; content := fst qa |};
   {| role := assistant; content := snd qa |}].

(** Every user message is directly followed by an assistant message. *)
Fixpoint answered (l : list Message) : bool :=
  match l with
  | [] => true
  | {| role := assistant |} :: rest => answered rest
  | {| role := user |} :: rest =>
      match rest with
      | {| role := assistant |} :: _ => answered rest
      | _ => false
      end
  end.

(** After a user message and its reply the next message, if any, is
    again a user message: one assistant message per question. *)
Fixpoint turns (l : list Message) : bool :=
  match l with
  | [] => true
  | {| role := user |} :: {| role := assistant |} :: rest => turns rest
  | _ => false
  end.

(** The message a settled request leaves in the transcript. *)
Definition replyOf (o : ChatOutcome) : Message :=
  match o with
  | Replied m => {| role := assistant; content := m |}
  | Rejected => fallbackMessage
  end.

(** The shape of a transcript: the introduction, the completed turns and,
    while a request is in flight, the question that waits for its
    answer. *)
Definition transcript (done : list (jsstring * jsstring))
    (waiting : option jsstring) : list Message :=
  introMessage :: flat_map turn done
    ++ match waiting with
       | Some q => [{| role := user; content := q |}]
       | None => []
       end.

Definition isSome {A : Type} (o : option A) : bool :=
  match o with Some _ => true | None => false end.

Definition shaped (s : Session) : Prop :=
  exists done waiting,
    messages s = transcript done waiting /\ loading s = isSome waiting.

(** The effect hands over a question only while the ref is unset, and
    sets it. *)
Definition oneShot (s : Session) : Prop :=
  length (autoSent s) <= (if hasHandledInitial s then 1 else 0).

(** Two sends, the first answered by the server, the second failing. *)
Definition sampleSession : list Event :=
  [Types (lit "why?"); PressesSend; Settles (Replied (lit "because"));
   EffectRuns (Some (lit "what next?")) true; Settles Rejected].

End ChatSidebar.

(* ===================================================================== *)
(** ** lib/utils.ts and lib/api.ts *)
(* ===================================================================== *)

Module Api.
Import Js.

Inductive JobStatus : Type := pending | processing | completed | failed.

Record QuantEvidence : Type :=
  { qn_metric : jsstring; qn_value : jsstring; qn_change : option jsstring }.

Record QualEvidence : Type :=
  { ql_theme : jsstring; ql_sentiment : Q; ql_quotes : list jsstring }.

Record RecommendedAction : Type :=
  { ac_title : jsstring; ac_description : jsstring; ac_evidence : jsstring }.

Record ABTest : Type :=
  { ab_name : jsstring; ab_control : jsstring; ab_treatment : jsstring }.

Record TrackedMetric : Type :=
  { tm_name : jsstring; tm_current : jsstring; tm_target : jsstring }.

(** Modelled from the spec: the [FinancialImpact] interface of
    lib/utils.ts is not in the sources at hand; its three fields are the
    ones [FinancialImpactCard] reads. *)
Record FinancialImpact : Type :=
  { lostRevenue : jsstring; costOfInaction : jsstring;
    recoveryPotential : jsstring }.

(** The object the results endpoint answers with.  The same endpoint
    serves a job that is still pending or processing, so [status] ranges
    over the four job statuses.  Modelled from the spec: the
    [AnalysisResult] of the lib/utils.ts at hand predates the two optional
    fields [financialImpact] and [suggestedQuestions] the results page
    reads. *)
Record AnalysisResult : Type := {
  jobId : jsstring;
  status : JobStatus;
  problemSummary : jsstring;
  quantEvidence : list QuantEvidence;
  qualEvidence : list QualEvidence;
  actions : list RecommendedAction;
  abTests : list ABTest;
  metrics : list TrackedMetric;
  financialImpact : option FinancialImpact;
  suggestedQuestions : option (list jsstring);
  generatedAt : jsstring
}.

(** Values a rejected promise of this module can carry. *)
Inductive Thrown : Type :=
| ApiError (message : jsstring) (httpStatus : Z)
| OtherError (message : jsstring)
| NonError.

(** [err instanceof Error] *)
Definition instanceofError (e : Thrown) : bool :=
  match e with NonError => false | _ => true end.

(** [err.message] of an [Error]. *)
Definition errMessage (e : Thrown) : jsstring :=
  match e with
  | ApiError m _ | OtherError m => m
  | NonError => []
  end.

(** How [fetch] and the body parser answer one request to
    [/api/results/:jobId].  The body of a non-2xx response is [None] when
    it is no JSON (the [.catch] then supplies "Unknown error"), [Some None]
    when it is JSON without a [detail] or with a falsy one, [Some (Some d)]
    when it carries a truthy detail, [d] being the string the [Error]
    constructor makes of it.  [NotOkNull] is the non-2xx response whose body is the JSON
    [null]: reading [body.detail] throws a [TypeError], whose message the
    constructor carries. *)
Inductive Fetched : Type :=
| FetchRejects (message : jsstring)
| Ok2xx (data : AnalysisResult)
| Ok2xxBadJson (message : jsstring)
| NotOk (httpStatus : Z) (body : option (option jsstring))
| NotOkNull (httpStatus : Z) (message : jsstring).

Inductive Settled (A : Type) : Type :=
| Returns (a : A)
| Throws (e : Thrown).
Arguments Returns {A} a.
Arguments Throws {A} e.

(** [a || b] on an optional string. *)
Definition or_default (a : option jsstring) (b : jsstring) : jsstring :=
  match a with
  | Some s => if truthy_string s then s else b
  | None => b
  end.

Definition getResults (f : Fetched) : Settled AnalysisResult :=
  match f with
  | FetchRejects m => Throws (OtherError m)
  | Ok2xx data => Returns data
  | Ok2xxBadJson m => Throws (OtherError m)
  | NotOk st body =>
      let detail :=
        match body with
        | Some d => d
        | None => Some (lit "Unknown error")
        end in
      Throws (ApiError (or_default detail (lit "Failed to fetch results")) st)
  | NotOkNull _ m => Throws (OtherError m)
  end.

(** What [pollForResults] does that the outside can see. *)
Inductive PollEvent : Type :=
| Fetch (attempt : nat)
| OnProgress (attempt : nat)
| Sleep (ms : Z).

Definition timedOut : Thrown :=
  ApiError (lit "Analysis timed out. Please try again.") 408.

Definition analysisFailed : Thrown :=
  ApiError (lit "Analysis failed on the server.") 500.

(** The [catch] clause of the loop body: rethrow or swallow. *)
Definition rethrows (e : Thrown) : bool :=
  match e with
  | ApiError _ st => negb (st =? 202)%Z
  | _ => false
  end.

(** The [for] loop of [pollForResults], with [remaining] iterations left
    ([maxAttempts - attempt]); [server k] answers the fetch of attempt
    [k]. *)
Fixpoint pollLoop (server : nat -> Fetched) (intervalMs : Z)
    (remaining attempt : nat) : list PollEvent * Settled AnalysisResult :=
  match remaining with
  | O => ([], Throws timedOut)
  | S remaining' =>
      let continue (evs : list PollEvent) :=
        let (rest, out) := pollLoop server intervalMs remaining' (S attempt) in
        (Fetch attempt :: evs ++ Sleep intervalMs :: rest, out) in
      match getResults (server attempt) with
      | Returns result =>
          match status result with
          | completed => ([Fetch attempt], Returns result)
          | failed =>
              if rethrows analysisFailed then ([Fetch attempt], Throws analysisFailed)
              else continue []
          | _ => continue [OnProgress (attempt + 1)]
          end
      | Throws err =>
          if rethrows err then ([Fetch attempt], Throws err)
          else continue []
      end
  end.

Definition pollForResults (server : nat -> Fetched)
    (maxAttempts : nat) (intervalMs : Z)
    : list PollEvent * Settled AnalysisResult :=
  pollLoop server intervalMs maxAttempts 0.

(** The defaults of the last two parameters. *)
Definition defaultMaxAttempts : nat := 60.
Definition defaultIntervalMs : Z := 2000.

(** An answer after which the loop goes on to another attempt. *)
Definition keepsWaiting (f : Fetched) : bool :=
  match getResults f with
  | Returns r =>
      match status r with
      | pending | processing => true
      | completed | failed => false
      end
  | Throws e => negb (rethrows e)
  end.

Definition isFetch (e : PollEvent) : bool :=
  match e with Fetch _ => true | _ => false end.

Definition fetchCount (evs : list PollEvent) : nat :=
  length (filter isFetch evs).

End Api.

(* ===================================================================== *)
(** ** app/results/[jobId]/page.tsx: state, polling and visibility *)
(* ===================================================================== *)

Module ResultsPage.
Import Js Api.

Inductive PageState : Type := Loading | Ready | Error.

Inductive Perspective : Type := pm | cfo | designer.

(** The [useState] cells of the page. *)
Record Page : Type := {
  state : PageState;
  result : option AnalysisResult;
  error : option jsstring;
  pollCount : nat;
  isExporting : bool;
  perspective : Perspective;
  chatOpen : bool;
  chatInitialQuestion : option jsstring
}.

Definition initialPage : Page :=
  {| state := Loading;
     result := None;
     error := None;
     pollCount := 0;
     isExporting := false;
     perspective := pm;
     chatOpen := false;
     chatInitialQuestion := None |}.

Definition setState (v : PageState) (p : Page) : Page :=
  {| state := v; result := result p; error := error p;
     pollCount := pollCount p; isExporting := isExporting p;
     perspective := perspective p; chatOpen := chatOpen p;
     chatInitialQuestion := chatInitialQuestion p |}.

Definition setResult (v : option AnalysisResult) (p : Page) : Page :=
  {| state := state p; result := v; error := error p;
     pollCount := pollCount p; isExporting := isExporting p;
     perspective := perspective p; chatOpen := chatOpen p;
     chatInitialQuestion := chatInitialQuestion p |}.

Definition setError (v : option jsstring) (p : Page) : Page :=
  {| state := state p; result := result p; error := v;
     pollCount := pollCount p; isExporting := isExporting p;
     perspective := perspective p; chatOpen := chatOpen p;
     chatInitialQuestion := chatInitialQuestion p |}.

Definition setPollCount (f : nat -> nat) (p : Page) : Page :=
  {| state := state p; result := result p; error := error p;
     pollCount := f (pollCount p); isExporting := isExporting p;
     perspective := perspective p; chatOpen := chatOpen p;
     chatInitialQuestion := chatInitialQuestion p |}.

Definition setIsExporting (v : bool) (p : Page) : Page :=
  {| state := state p; result := result p; error := error p;
     pollCount := pollCount p; isExporting := v;
     perspective := perspective p; chatOpen := chatOpen p;
     chatInitialQuestion := chatInitialQuestion p |}.

Definition setPerspective (v : Perspective) (p : Page) : Page :=
  {| state := state p; result := result p; error := error p;
     pollCount := pollCount p; isExporting := isExporting p;
     perspective := v; chatOpen := chatOpen p;
     chatInitialQuestion := chatInitialQuestion p |}.

(** *** The polling effect *)

(** [fetchResults] after [await getResults(jobId)] settled: the page
    after its state updates and the boolean it resolves to. *)
Definition fetchResults (o : Settled AnalysisResult) (p : Page) : Page * bool :=
  match o with
  | Returns data =>
      match status data with
      | completed => (setState Ready (setResult (Some data) p), true)
      | _ => (p, false)
      end
  | Throws err =>
      if instanceofError err && includes (errMessage err) (lit "still processing")
      then (p, false)
      else
        (setState Error
           (setError
              (Some (if instanceofError err then errMessage err
                     else lit "Failed to load results.")) p),
         true)
  end.

(** One run of the effect: its two local variables ([timeout] holds the
    delay of the timer that is armed, if one is), whether its [getResults]
    call is in flight, and the count of the fetches it issued. *)
Record PollEffect : Type := {
  cancelled : bool;
  timeout : option Z;
  inFlight : bool;
  fetches : nat
}.

Definition Config : Type := (Page * PollEffect)%type.

(** [poll()] up to its [await]. *)
Definition poll (c : Config) : Config :=
  let (p, e) := c in
  if cancelled e then c
  else
    (p, {| cancelled := cancelled e; timeout := timeout e;
           inFlight := true; fetches := S (fetches e) |}).

(** [poll()] from the moment [getResults] settles: the rest of
    [fetchResults], then the scheduling of the next round. *)
Definition poll_resume (o : Settled AnalysisResult) (c : Config) : Config :=
  let (p, e) := c in
  let (p', done) := fetchResults o p in
  if negb done && negb (cancelled e) then
    (setPollCount S p',
     {| cancelled := cancelled e; timeout := Some 2000%Z;
        inFlight := false; fetches := fetches e |})
  else
    (p', {| cancelled := cancelled e; timeout := timeout e;
            inFlight := false; fetches := fetches e |}).

(** The effect body: fresh locals, then [poll()]. *)
Definition effect (p : Page) : Config :=
  poll (p, {| cancelled := false; timeout := None;
              inFlight := false; fetches := 0 |}).

(** The function the effect returns. *)
Definition cleanup (c : Config) : Config :=
  let (p, e) := c in
  (p, {| cancelled := true; timeout := None;
         inFlight := inFlight e; fetches := fetches e |}).

Inductive PollInput : Type :=
| FetchSettles (f : Fetched)
| TimerFires
| CleanupRuns.

Definition pollStep (c : Config) (i : PollInput) : Config :=
  match i with
  | FetchSettles f =>
      if inFlight (snd c) then poll_resume (getResults f) c else c
  | TimerFires =>
      match timeout (snd c) with
      | Some _ =>
          poll (fst c, {| cancelled := cancelled (snd c); timeout := None;
                          inFlight := inFlight (snd c);
                          fetches := fetches (snd c) |})
      | None => c
      end
  | CleanupRuns => cleanup c
  end.

Definition pollRun (inputs : list PollInput) (c : Config) : Config :=
  fold_left pollStep inputs c.

(** A result object with nothing in it but its status. *)
Definition bareResult (st : JobStatus) : AnalysisResult :=
  {| jobId := lit "job-1"; status := st; problemSummary := [];
     quantEvidence := []; qualEvidence := []; actions := [];
     abTests := []; metrics := []; financialImpact := None;
     suggestedQuestions := None; generatedAt := [] |}.

(** [n] rounds in which the server says the job is still processing and
    the timer then fires. *)
Fixpoint stillProcessing (n : nat) : list PollInput :=
  match n with
  | O => []
  | S n' => FetchSettles (Ok2xx (bareResult processing)) :: TimerFires
            :: stillProcessing n'
  end.

(** The configuration while a fetch is in flight and nothing has settled
    the job: it is reproduced, one fetch later, by every round in which
    the server says the job is still processing. *)
Definition waiting (n : nat) : Config :=
  ({| state := Loading; result := None; error := None; pollCount := n;
      isExporting := false; perspective := pm; chatOpen := false;
      chatInitialQuestion := None |},
   {| cancelled := false; timeout := None; inFlight := true;
      fetches := S n |}).

(** *** Perspective-based card visibility *)

Definition isPerspective (a b : Perspective) : bool :=
  match a, b with
  | pm, pm | cfo, cfo | designer, designer => true
  | _, _ => false
  end.

(** [result?.financialImpact] *)
Definition financialImpactOf (r : option AnalysisResult) : value :=
  match r with
  | Some r' =>
      match financialImpact r' with Some _ => VObject | None => VUndefined end
  | None => VUndefined
  end.

(** [result?.suggestedQuestions] *)
Definition suggestedQuestionsOf (r : option AnalysisResult) : value :=
  match r with
  | Some r' =>
      match suggestedQuestions r' with
      | Some qs => VArray (length qs)
      | None => VUndefined
      end
  | None => VUndefined
  end.

(** [v.length > 0] for the array the left operand of [&&] let through. *)
Definition lengthPositive (v : value) : value :=
  match v with
  | VArray n => VBool (0 <? n)
  | _ => VUndefined
  end.

Definition showFinancial (r : option AnalysisResult) (p : Perspective) : value :=
  and_ (financialImpactOf r) (VBool (isPerspective p cfo || isPerspective p pm)).

Definition showABTests (p : Perspective) : value :=
  VBool (isPerspective p pm || isPerspective p designer).

Definition showMetrics (p : Perspective) : value :=
  VBool (isPerspective p pm || isPerspective p cfo).

Definition showQuantEvidence (p : Perspective) : value :=
  VBool (isPerspective p pm || isPerspective p cfo).

Definition showQualEvidence (p : Perspective) : value :=
  VBool (isPerspective p pm || isPerspective p designer).

Definition showRecommendedQuestions (r : option AnalysisResult) : value :=
  and_ (suggestedQuestionsOf r) (lengthPositive (suggestedQuestionsOf r)).

Inductive Card : Type :=
| ProblemSummaryCard
| FinancialImpactCard
| QuantEvidenceCard
| QualEvidenceCard
| ActionsCard
| ABTestCard
| MetricsCard
| RecommendedQuestions.

Definition card_eqb (a b : Card) : bool :=
  match a, b with
  | ProblemSummaryCard, ProblemSummaryCard
  | FinancialImpactCard, FinancialImpactCard
  | QuantEvidenceCard, QuantEvidenceCard
  | QualEvidenceCard, QualEvidenceCard
  | ActionsCard, ActionsCard
  | ABTestCard, ABTestCard
  | MetricsCard, MetricsCard
  | RecommendedQuestions, RecommendedQuestions => true
  | _, _ => false
  end.

(** [{cond && <card/>}] *)
Definition when (cond : value) (c : Card) : list Card :=
  if truthy cond then [c] else [].

(** The cards of the report container, in document order, as rendered
    under [state === "ready" && result]. *)
Definition cards (p : Page) : list Card :=
  match state p, result p with
  | Ready, Some _ =>
      [ProblemSummaryCard]
      ++ when (showFinancial (result p) (perspective p)) FinancialImpactCard
      ++ when (showQuantEvidence (perspective p)) QuantEvidenceCard
      ++ when (showQualEvidence (perspective p)) QualEvidenceCard
      ++ [ActionsCard]
      ++ when (showABTests (perspective p)) ABTestCard
      ++ when (showMetrics (perspective p)) MetricsCard
      ++ when (showRecommendedQuestions (result p)) RecommendedQuestions
  | _, _ => []
  end.

Definition shown (c : Card) (p : Page) : bool := existsb (card_eqb c) (cards p).

(** The fixed table of the perspectives. *)
Definition seesNumbers (v : Perspective) : bool :=
  match v with pm | cfo => true | designer => false end.

Definition seesPeople (v : Perspective) : bool :=
  match v with pm | designer => true | cfo => false end.

Definition present {A : Type} (o : option A) : bool :=
  match o with Some _ => true | None => false end.

Definition nonEmpty {A : Type} (o : option (list A)) : bool :=
  match o with Some (_ :: _) => true | _ => false end.

(** A server that finds the job processing twice and completed the third
    time round. *)
Definition thirdTime (k : nat) : Fetched :=
  if k <? 2 then Ok2xx (bareResult processing)
  else Ok2xx (bareResult completed).

(** A completed result that carries a financial impact and one suggested
    question. *)
Definition fullResult : AnalysisResult :=
  {| jobId := lit "job-1"; status := completed;
     problemSummary := lit "Checkout drop-off";
     quantEvidence := []; qualEvidence := []; actions := [];
     abTests := []; metrics := [];
     financialImpact :=
       Some {| lostRevenue := lit "$10k"; costOfInaction := lit "$5k";
               recoveryPotential := lit "$8k" |};
     suggestedQuestions := Some [lit "Why?"];
     generatedAt := lit "2025-01-01" |}.

(** The page once polling delivered [r], viewed from perspective [v]. *)
Definition readyPage (r : AnalysisResult) (v : Perspective) : Page :=
  setPerspective v (setState Ready (setResult (Some r) initialPage)).

End ResultsPage.

(* ===================================================================== *)
(** ** app/results/[jobId]/page.tsx: handleExportPDF *)
(* ===================================================================== *)

Module ExportPDF.
Import Js Api ResultsPage.

(** [a < b] on the rationals standing for JavaScript numbers. *)
Definition Qltb (a b : Q) : bool := negb (Qle_bool b a).

(** What the export does to the outside world.  A library call is logged
    when it returns, so a call that throws leaves no entry. *)
Inductive ExportEvent : Type :=
| Html2canvas (scale windowWidth : Z)
| ToDataURL
| NewJsPDF
| GetWidth
| GetHeight
| GetImageProperties
| AddImage (x y w h : Q)
| AddPage
| Save (filename : jsstring)
| ConsoleError
| Alert (message : jsstring).

(** What the handler finds around it: the ref, the route parameter, the
    page size jsPDF reports, the size of the captured image, and which
    library call (counted from 0 in call order) throws, if any. *)
Record Env : Type := {
  refCurrent : bool;
  jobIdParam : jsstring;
  pdfWidth : Q;
  pdfHeight : Q;
  imgWidth : Q;
  imgHeight : Q;
  throwsAt : option nat
}.

Record St : Type := { page : Page; calls : nat; log : list ExportEvent }.

Inductive Res (A : Type) : Type :=
| Val (a : A)
| Exn
| Spin.
Arguments Val {A} a.
Arguments Exn {A}.
Arguments Spin {A}.

(** State, exceptions and a loop that may not end. *)
Definition M (A : Type) : Type := St -> Res A * St.

Definition ret {A : Type} (a : A) : M A := fun s => (Val a, s).

Definition bind {A B : Type} (m : M A) (k : A -> M B) : M B :=
  fun s =>
    match m s with
    | (Val a, s') => k a s'
    | (Exn, s') => (Exn, s')
    | (Spin, s') => (Spin, s')
    end.

Notation "m ;; k" := (bind m (fun _ => k))
  (at level 61, right associativity).

Definition spin : M unit := fun s => (Spin, s).

(** A call into html2canvas or jsPDF. *)
Definition call (env : Env) (e : ExportEvent) : M unit :=
  fun s =>
    let s' := {| page := page s; calls := S (calls s); log := log s |} in
    match throwsAt env with
    | Some k =>
        if calls s =? k then (Exn, s')
        else (Val tt, {| page := page s; calls := S (calls s);
                         log := log s ++ [e] |})
    | None => (Val tt, {| page := page s; calls := S (calls s);
                          log := log s ++ [e] |})
    end.

(** [console.error] and [alert]. *)
Definition emit (e : ExportEvent) : M unit :=
  fun s => (Val tt, {| page := page s; calls := calls s; log := log s ++ [e] |}).

Definition update (f : Page -> Page) : M unit :=
  fun s => (Val tt, {| page := f (page s); calls := calls s; log := log s |}).

(** [try { body } catch { handler } finally { fin }] *)
Definition try_catch_finally (body handler fin : M unit) : M unit :=
  fun s =>
    match body s with
    | (Val _, s1) => fin s1
    | (Exn, s1) =>
        match handler s1 with
        | (Val _, s2) => fin s2
        | (Exn, s2) =>
            match fin s2 with
            | (Val _, s3) => (Exn, s3)
            | r => r
            end
        | (Spin, s2) => (Spin, s2)
        end
    | (Spin, s1) => (Spin, s1)
    end.

Local Open Scope Q_scope.

Definition margin : Q := 10.

Definition contentWidth (env : Env) : Q := pdfWidth env - margin * 2.

(** [(imgProps.height * contentWidth) / imgProps.width] for a captured
    image of non-zero width, the only case in which the rational quotient
    stands for the number the code computes (with a zero width the code's
    quotient is infinite or not a number).  What is proved below about page
    counts, termination and the saved file is stated for
    [0 < imgWidth env]. *)
Definition imgRenderHeight (env : Env) : Q :=
  (imgHeight env * contentWidth env) / imgWidth env.

(** The height one page takes off [heightLeft] first. *)
Definition usableHeight (env : Env) : Q := pdfHeight env - margin * 2.

(** The [while (heightLeft > 0)] loop. *)
Fixpoint addPages (env : Env) (fuel : nat) (heightLeft : Q) : M unit :=
  if Qltb 0 heightLeft then
    match fuel with
    | O => spin
    | S fuel' =>
        let position := heightLeft - imgRenderHeight env + margin in
        call env AddPage ;;
        call env (AddImage margin position (contentWidth env) (imgRenderHeight env)) ;;
        addPages env fuel' (heightLeft - pdfHeight env)
    end
  else ret tt.

Definition fileName (env : Env) : jsstring :=
  lit "Normate-Analysis-" ++ jobIdParam env ++ lit ".pdf".

(** The [try] block. *)
Definition exportBody (env : Env) (fuel : nat) : M unit :=
  call env (Html2canvas 2 1200) ;;
  call env ToDataURL ;;
  call env NewJsPDF ;;
  call env GetWidth ;;
  call env GetHeight ;;
  call env GetImageProperties ;;
  let heightLeft := imgRenderHeight env in
  let position := margin in
  call env (AddImage margin position (contentWidth env) (imgRenderHeight env)) ;;
  addPages env fuel (heightLeft - (pdfHeight env - margin * 2)) ;;
  call env (Save (fileName env)).

Definition exportHandler : M unit :=
  emit ConsoleError ;;
  emit (Alert (lit "Failed to generate PDF. Please try again.")).

Definition handleExportPDF (env : Env) (fuel : nat) : M unit :=
  if negb (refCurrent env) then ret tt
  else
    update (setIsExporting true) ;;
    try_catch_finally (exportBody env fuel) exportHandler
      (update (setIsExporting false)).

Definition start (p : Page) : St := {| page := p; calls := 0; log := [] |}.

(** The vertical positions of the [addImage] calls, one per page. *)
Fixpoint offsets (l : list ExportEvent) : list Q :=
  match l with
  | [] => []
  | AddImage _ y _ _ :: t => y :: offsets t
  | _ :: t => offsets t
  end.

Definition isSave (e : ExportEvent) : bool :=
  match e with Save _ => true | _ => false end.

Definition isAddPage (e : ExportEvent) : bool :=
  match e with AddPage => true | _ => false end.

(** Pages of the document: the one [new jsPDF] starts with and one per
    [addPage]. *)
Definition pageCount (l : list ExportEvent) : nat :=
  S (length (filter isAddPage l)).

(** Each offset is the one before it less [d]. *)
Fixpoint stepsBy (d : Q) (l : list Q) : Prop :=
  match l with
  | a :: (b :: _) as t => b == a - d /\ stepsBy d t
  | _ => True
  end.

Fixpoint decreasing (l : list Q) : Prop :=
  match l with
  | a :: (b :: _) as t => b < a /\ decreasing t
  | _ => True
  end.

(** Modelled from the spec: jsPDF is not part of the sources; the page of
    [format: 'a4'] in millimetres, portrait, is given its nominal
    width. *)
Definition a4Width : Q := 210.

(** Modelled from the spec: the nominal height of the same page. *)
Definition a4Height : Q := 297.

(** An export of a captured image [w] by [h] onto A4 in which no library
    call throws. *)
Definition a4Export (w h : Q) : Env :=
  {| refCurrent := true; jobIdParam := lit "job-1";
     pdfWidth := a4Width; pdfHeight := a4Height;
     imgWidth := w; imgHeight := h; throwsAt := None |}.

(** The height [fuel] rounds of the loop take off [heightLeft]. *)
Fixpoint reach (fuel : nat) (pageHeight : Q) : Q :=
  match fuel with
  | O => 0
  | S fuel' => reach fuel' pageHeight + pageHeight
  end.

(** Fuel that lets the loop of [env] run to its end. *)
Definition enoughFuel (env : Env) (fuel : nat) : Prop :=
  imgRenderHeight env - usableHeight env <= reach fuel (pdfHeight env).

(** The positions the loop computes from [heightLeft] on, for an image
    rendered [h] high. *)
Fixpoint slices (h pageHeight heightLeft : Q) (ys : list Q) : Prop :=
  match ys with
  | [] => heightLeft <= 0
  | y :: ys' =>
      0 < heightLeft
      /\ y = heightLeft - h + margin
      /\ slices h pageHeight (heightLeft - pageHeight) ys'
  end.

(** What one round of the loop adds to the document. *)
Definition pageOf (env : Env) (y : Q) : list ExportEvent :=
  [AddPage; AddImage margin y (contentWidth env) (imgRenderHeight env)].

(** The calls of the [try] block up to the first [addImage]. *)
Definition firstPage (env : Env) : list ExportEvent :=
  [Html2canvas 2 1200; ToDataURL; NewJsPDF; GetWidth; GetHeight;
   GetImageProperties;
   AddImage margin margin (contentWidth env) (imgRenderHeight env)].

(** The layout of the offsets: page 1 at the margin, page 2 one usable
    height above it, every later page one full page height above the one
    before. *)
Definition laidOut (env : Env) (ys : list Q) : Prop :=
  match ys with
  | [] => False
  | y0 :: rest =>
      y0 = margin
      /\ match rest with
         | [] => True
         | y1 :: _ => y1 == y0 - usableHeight env
                      /\ stepsBy (pdfHeight env) rest
         end
  end.

(** A captured image that renders 2.5 usable page heights tall on A4:
    190 wide and 692.5 high. *)
Definition tallImage : Env := a4Export 190 (1385 # 2).

Definition tallExport : Res unit * St :=
  handleExportPDF tallImage 2 (start initialPage).

(** The same export with html2canvas throwing, and with the second
    [addImage] throwing. *)
Definition captureThrows : Env :=
  {| refCurrent := true; jobIdParam := lit "job-1";
     pdfWidth := a4Width; pdfHeight := a4Height;
     imgWidth := 190; imgHeight := 1385 # 2; throwsAt := Some 0%nat |}.

Definition compositionThrows : Env :=
  {| refCurrent := true; jobIdParam := lit "job-1";
     pdfWidth := a4Width; pdfHeight := a4Height;
     imgWidth := 190; imgHeight := 1385 # 2; throwsAt := Some 8%nat |}.

Definition noSave (s : St) : Prop := existsb isSave (log s) = false.

(** A step that cannot put a [Save] into the log. *)
Definition savesNothing (m : M unit) : Prop :=
  forall s, noSave s -> noSave (snd (m s)).

(** A computation that has saved nothing whenever it ends by throwing. *)
Definition throwsUnsaved (m : M unit) : Prop :=
  forall s, noSave s -> fst (m s) = Exn -> noSave (snd (m s)).

Definition keepsPage (m : M unit) : Prop :=
  forall s, page (snd (m s)) = page s.

(** A computation that, when it ends by throwing, made the call that
    threw as its last library call. *)
Definition throwEndsIt (env : Env) (m : M unit) : Prop :=
  forall s, fst (m s) = Exn ->
    exists k, throwsAt env = Some k /\ calls (snd (m s)) = S k.

End ExportPDF.

(* ===================================================================== *)
(** ** Reading the trace of [pollForResults] *)
(* ===================================================================== *)

Module ApiTrace.
Import Js Api.

Definition isSleep (e : PollEvent) : bool :=
  match e with Sleep _ => true | _ => false end.

Definition sleepCount (evs : list PollEvent) : nat :=
  length (filter isSleep evs).

(** The attempt numbers of the fetches, in the order they went out. *)
Fixpoint fetchAttempts (evs : list PollEvent) : list nat :=
  match evs with
  | [] => []
  | Fetch a :: t => a :: fetchAttempts t
  | _ :: t => fetchAttempts t
  end.

(** The delays slept, in order. *)
Fixpoint sleepDelays (evs : list PollEvent) : list Z :=
  match evs with
  | [] => []
  | Sleep ms :: t => ms :: sleepDelays t
  | _ :: t => sleepDelays t
  end.

(** What an answer makes of the whole poll, when it ends it. *)
Definition terminalOutcome (f : Fetched) : option (Settled AnalysisResult) :=
  match getResults f with
  | Returns r =>
      match status r with
      | completed => Some (Returns r)
      | failed => Some (Throws analysisFailed)
      | pending | processing => None
      end
  | Throws e => if rethrows e then Some (Throws e) else None
  end.

(** A server whose network is down. *)
Definition offline (k : nat) : Fetched := FetchRejects (lit "Failed to fetch").

(** The message of the [TypeError] a read of [null.detail] throws (its
    wording is the engine's). *)
Definition nullDetail : jsstring :=
  lit "Cannot read properties of null (reading 'detail')".

(** A server that first answers 500 with the body [null], then with the
    completed result. *)
Definition nullThenDone (k : nat) : Fetched :=
  if k =? 0 then NotOkNull 500 nullDetail
  else Ok2xx (ResultsPage.bareResult completed).

End ApiTrace.

(* ===================================================================== *)
(** ** The results page while it polls: progress bar and bookkeeping *)
(* ===================================================================== *)

Module PagePoll.
Import Js Api ResultsPage.

(** The width, in percent, of the progress bar of the loading view:
    [Math.min(95, 10 + pollCount * 6)]. *)
Definition progressWidth (pollCount : nat) : nat :=
  Nat.min 95 (10 + pollCount * 6).

(** The bookkeeping of an effect that was started on page [p0]: a fetch
    in flight and an armed timer exclude each other, a cancelled effect has
    no timer, and the poll counter lags the fetches by one exactly while a
    fetch is in flight. *)
Definition booked (p0 : Page) (c : Config) : Prop :=
  pollCount p0 <= pollCount (fst c)
  /\ (inFlight (snd c) = true ->
      timeout (snd c) = None
      /\ pollCount p0 + fetches (snd c) = S (pollCount (fst c)))
  /\ (timeout (snd c) <> None ->
      inFlight (snd c) = false /\ cancelled (snd c) = false
      /\ pollCount p0 + fetches (snd c) = pollCount (fst c))
  /\ pollCount (fst c) <= pollCount p0 + fetches (snd c)
  /\ pollCount p0 + fetches (snd c) <= S (pollCount (fst c)).

(** Nothing pending: no fetch in flight and no timer armed. *)
Definition idle (c : Config) : Prop :=
  inFlight (snd c) = false /\ timeout (snd c) = None.

Definition phrase : jsstring := lit "still processing".

End PagePoll.

(* ===================================================================== *)
(** ** Reading the chat transcript against the request log *)
(* ===================================================================== *)

Module ChatLog.
Import Js ChatSidebar.

(** The texts of the user messages of a transcript, in order. *)
Fixpoint questions (l : list Message) : list jsstring :=
  match l with
  | [] => []
  | {| role := user; content := q |} :: t => q :: questions t
  | {| role := assistant |} :: t => questions t
  end.

(** The transcript and the request log tell the same story. *)
Definition logged (s : Session) : Prop :=
  questions (messages s) = requests s
  /\ length (messages s) + (if loading s then 1 else 0)
     = 1 + 2 * length (requests s).

(** Events in which the user neither types nor picks a suggested
    question. *)
Definition pressOrSettle (e : Event) : bool :=
  match e with
  | PressesSend | Settles _ => true
  | EffectRuns _ _ | Types _ => false
  end.

End ChatLog.

(* ===================================================================== *)
(** ** Reading the exported document *)
(* ===================================================================== *)

Module ExportLayout.
Import Js Api ResultsPage ExportPDF.
Local Open Scope Q_scope.

(** The image row [row] (millimetres below the top of the rendered image)
    falls inside the page when the image is drawn at vertical offset
    [y]. *)
Definition onPage (env : Env) (y row : Q) : Prop :=
  0 <= y + row /\ y + row <= pdfHeight env.

(** Some page of the document shows the row. *)
Definition shownOn (env : Env) (ys : list Q) (row : Q) : Prop :=
  exists y, In y ys /\ onPage env y row.

Definition isNotice (e : ExportEvent) : bool :=
  match e with ConsoleError | Alert _ => true | _ => false end.

(** A computation that runs to an end. *)
Definition ends (m : M unit) : Prop := forall s, fst (m s) <> Spin.

(** A captured image that renders 572 high on A4: two pages. *)
Definition cutImage : Env := a4Export 190 572.

(** A canvas of 380 by 1385 pixels: it renders 692.5 high on A4, like
    [tallImage]. *)
Definition tallCanvas : Env := a4Export 380 1385.

End ExportLayout.

(* ===================================================================== *)
(** ** app/page.tsx: the submit form, caller of [submitAnalysis] *)
(* ===================================================================== *)

Module HomePage.
Import Js Api.

Record File : Type := { f_name : jsstring; f_size : nat }.

Record AnalysisContext : Type := {
  researchQuestion : jsstring;
  productDescription : jsstring;
  timePeriod : option jsstring
}.

Record AnalysisJob : Type := { job_jobId : jsstring; job_status : JobStatus }.

Inductive SubmitState : Type := idle | submitting | success | error.

(** One call of [submitAnalysis]: its three arguments. *)
Definition Submission : Type :=
  (list File * list File * AnalysisContext)%type.

(** The [useState] cells of the page, the calls of [submitAnalysis] made
    so far, how many of them have settled, and the routes handed to the
    delayed [router.push]. *)
Record Home : Type := {
  quantFiles : list File;
  qualFiles : list File;
  context : AnalysisContext;
  submitState : SubmitState;
  errorMsg : option jsstring;
  submitted : list Submission;
  answered : nat;
  pushes : list jsstring
}.

Definition initialHome : Home :=
  {| quantFiles := []; qualFiles := [];
     context := {| researchQuestion := []; productDescription := [];
                   timePeriod := Some [] |};
     submitState := idle; errorMsg := None;
     submitted := []; answered := 0; pushes := [] |}.

Definition canSubmitWith (quant qual : list File) (ctx : AnalysisContext) : bool :=
  (0 <? length quant) && (0 <? length qual)
  && (10 <? length (trim (researchQuestion ctx)))
  && (5 <? length (trim (productDescription ctx))).

Definition canSubmit (h : Home) : bool :=
  canSubmitWith (quantFiles h) (qualFiles h) (context h).

Definition isSubmitting (st : SubmitState) : bool :=
  match st with submitting => true | _ => false end.

(** How [fetch] and the body parser answer the POST to [/api/analyze];
    [PostNotOkNull] is the non-2xx response whose body is the JSON [null],
    on which reading [body.detail] throws a [TypeError] with the message
    given. *)
Inductive Posted : Type :=
| PostRejects (message : jsstring)
| PostOk (job : AnalysisJob)
| PostOkBadJson (message : jsstring)
| PostNotOk (httpStatus : Z) (body : option (option jsstring))
| PostNotOkNull (httpStatus : Z) (message : jsstring).

(** [submitAnalysis] from the response on. *)
Definition submitAnalysis (r : Posted) : Settled AnalysisJob :=
  match r with
  | PostRejects m => Throws (OtherError m)
  | PostOk job => Returns job
  | PostOkBadJson m => Throws (OtherError m)
  | PostNotOk st body =>
      let detail :=
        match body with
        | Some d => d
        | None => Some (lit "Unknown error")
        end in
      Throws (ApiError (or_default detail (lit "Failed to submit analysis")) st)
  | PostNotOkNull _ m => Throws (OtherError m)
  end.

(** [handleAnalyze] up to its [await]. *)
Definition handleAnalyze (h : Home) : Home :=
  if negb (canSubmit h) || isSubmitting (submitState h) then h
  else
    {| quantFiles := quantFiles h; qualFiles := qualFiles h;
       context := context h;
       submitState := submitting; errorMsg := None;
       submitted := submitted h ++ [(quantFiles h, qualFiles h, context h)];
       answered := answered h; pushes := pushes h |}.

(** [handleAnalyze] once [submitAnalysis] has settled. *)
Definition handleAnalyze_resume (o : Settled AnalysisJob) (h : Home) : Home :=
  match o with
  | Returns job =>
      {| quantFiles := quantFiles h; qualFiles := qualFiles h;
         context := context h;
         submitState := success; errorMsg := errorMsg h;
         submitted := submitted h; answered := S (answered h);
         pushes := pushes h ++ [lit "/results/" ++ job_jobId job] |}
  | Throws err =>
      {| quantFiles := quantFiles h; qualFiles := qualFiles h;
         context := context h;
         submitState := error;
         errorMsg := Some (if instanceofError err then errMessage err
                           else lit "Something went wrong.");
         submitted := submitted h; answered := S (answered h);
         pushes := pushes h |}
  end.

Definition setQuantFiles (v : list File) (h : Home) : Home :=
  {| quantFiles := v; qualFiles := qualFiles h; context := context h;
     submitState := submitState h; errorMsg := errorMsg h;
     submitted := submitted h; answered := answered h; pushes := pushes h |}.

Definition setQualFiles (v : list File) (h : Home) : Home :=
  {| quantFiles := quantFiles h; qualFiles := v; context := context h;
     submitState := submitState h; errorMsg := errorMsg h;
     submitted := submitted h; answered := answered h; pushes := pushes h |}.

Definition setContext (v : AnalysisContext) (h : Home) : Home :=
  {| quantFiles := quantFiles h; qualFiles := qualFiles h; context := v;
     submitState := submitState h; errorMsg := errorMsg h;
     submitted := submitted h; answered := answered h; pushes := pushes h |}.

Inductive HomeEvent : Type :=
| QuantChanged (v : list File)
| QualChanged (v : list File)
| ContextChanged (v : AnalysisContext)
| AnalyzeClicked
| SubmitSettles (r : Posted).

Definition homeStep (h : Home) (e : HomeEvent) : Home :=
  match e with
  | QuantChanged v => setQuantFiles v h
  | QualChanged v => setQualFiles v h
  | ContextChanged v => setContext v h
  | AnalyzeClicked => handleAnalyze h
  | SubmitSettles r =>
      if isSubmitting (submitState h)
      then handleAnalyze_resume (submitAnalysis r) h
      else h
  end.

Definition homeRun (evs : list HomeEvent) (h : Home) : Home :=
  fold_left homeStep evs h.

(** What the form lets through. *)
Definition valid (sub : Submission) : Prop :=
  let '(quant, qual, ctx) := sub in
  quant <> [] /\ qual <> []
  /\ 10 < length (trim (researchQuestion ctx))
  /\ 5 < length (trim (productDescription ctx)).

(** The bookkeeping of the form: only valid submissions went out, and one
    is unsettled exactly while the state is [submitting]. *)
Definition orderly (h : Home) : Prop :=
  Forall valid (submitted h)
  /\ length (submitted h)
     = answered h + (if isSubmitting (submitState h) then 1 else 0).

(** The research question with white space put around it. *)
Definition padded (a b : jsstring) (ctx : AnalysisContext) : AnalysisContext :=
  {| researchQuestion := a ++ researchQuestion ctx ++ b;
     productDescription := productDescription ctx;
     timePeriod := timePeriod ctx |}.

Definition aFile : File := {| f_name := lit "data.csv"; f_size := 10 |}.

Definition aContext : AnalysisContext :=
  {| researchQuestion := lit "Why do users drop off?";
     productDescription := lit "Checkout";
     timePeriod := None |}.

End HomePage.

(* ===================================================================== *)
(** ** app/history/page.tsx: caller of [deleteHistoryItem] *)
(* ===================================================================== *)

Module HistoryPage.
Import Js Api.

Record HistoryJob : Type := {
  job_id : jsstring;
  h_status : jsstring;
  created_at : jsstring;
  research_question : jsstring;
  product_description : option jsstring
}.

Record History : Type := {
  jobs : list HistoryJob;
  loading : bool;
  showWipeConfirm : bool;
  deleting : option jsstring
}.

(** [a === b] on strings. *)
Fixpoint str_eqb (a b : jsstring) : bool :=
  match a, b with
  | [], [] => true
  | x :: a', y :: b' => (x =? y)%N && str_eqb a' b'
  | _, _ => false
  end.

(** [handleDelete(jobId)] up to its [await]. *)
Definition handleDelete (jobId : jsstring) (h : History) : History :=
  {| jobs := jobs h; loading := loading h;
     showWipeConfirm := showWipeConfirm h; deleting := Some jobId |}.

(** [handleDelete(jobId)] once [deleteHistoryItem] has settled; [ok] says
    whether it resolved. *)
Definition handleDelete_resume (jobId : jsstring) (ok : bool) (h : History)
    : History :=
  {| jobs := if ok
             then filter (fun j => negb (str_eqb (job_id j) jobId)) (jobs h)
             else jobs h;
     loading := loading h;
     showWipeConfirm := showWipeConfirm h;
     deleting := None |}.

(** Several deletions settling one after the other. *)
Definition settleAll (rs : list (jsstring * bool)) (h : History) : History :=
  fold_left (fun h' r => handleDelete_resume (fst r) (snd r) h') rs h.

(** A job is kept when no successful deletion named it. *)
Definition kept (rs : list (jsstring * bool)) (j : HistoryJob) : bool :=
  negb (existsb (fun r => snd r && str_eqb (job_id j) (fst r)) rs).

End HistoryPage.

(* ===================================================================== *)
(** * Properties *)
(* ===================================================================== *)

(** ** String trimming *)

Module JsFacts.
Import Js.

Lemma blank_app (a b : jsstring) : blank (a ++ b) = blank a && blank b.
Proof. unfold blank. apply forallb_app. Qed.

Lemma blank_rev (s : jsstring) : blank (rev s) = blank s.
Proof.
  induction s as [|c t IH]; simpl; [reflexivity|].
  rewrite blank_app, IH. simpl. rewrite andb_true_r. apply andb_comm.
Qed.

Lemma trimStart_nil_iff (s : jsstring) : trimStart s = [] <-> blank s = true.
Proof.
  induction s as [|c t IH]; simpl.
  - tauto.
  - destruct (isWhiteSpace c); simpl.
    + exact IH.
    + split; discriminate.
Qed.

Lemma blank_trimStart (s : jsstring) : blank (trimStart s) = blank s.
Proof.
  induction s as [|c t IH]; simpl; [reflexivity|].
  destruct (isWhiteSpace c) eqn:E; simpl.
  - exact IH.
  - rewrite E. reflexivity.
Qed.

Lemma rev_nil_iff (A : Type) (l : list A) : rev l = [] <-> l = [].
Proof.
  split; intros H.
  - rewrite <- (rev_involutive l), H. reflexivity.
  - subst. reflexivity.
Qed.

(** [text.trim()] is the empty string exactly for a blank [text]. *)
Lemma trim_nil_iff (s : jsstring) : trim s = [] <-> blank s = true.
Proof.
  unfold trim, trimEnd. split; intros H.
  - apply rev_nil_iff, trimStart_nil_iff in H.
    rewrite blank_rev, blank_trimStart in H. exact H.
  - apply rev_nil_iff, trimStart_nil_iff.
    rewrite blank_rev, blank_trimStart. exact H.
Qed.

(** The guard [!text.trim()] of [sendMessage]. *)
Lemma not_trim_blank (s : jsstring) : negb (truthy_string (trim s)) = blank s.
Proof.
  destruct (blank s) eqn:B.
  - apply trim_nil_iff in B. rewrite B. reflexivity.
  - destruct (trim s) eqn:T; [|reflexivity].
    apply trim_nil_iff in T. congruence.
Qed.

Example trim_strips_both_ends : trim (lit "  hi there  ") = lit "hi there".
Proof. reflexivity. Qed.

Example no_break_space_is_blank : blank [160; 32; 9; 8232]%N = true.
Proof. reflexivity. Qed.

Example includes_still_processing :
  includes (lit "Job is still processing") (lit "still processing") = true
  /\ includes (lit "Job not found") (lit "still processing") = false.
Proof. split; reflexivity. Qed.

End JsFacts.

(** ** The chat sidebar *)

Module ChatFacts.
Import Js ChatSidebar JsFacts.

(** A property kept by every event holds after any run. *)
Lemma run_invariant (P : Session -> Prop) :
  (forall s e, P s -> P (step s e)) ->
  forall evs s, P s -> P (run evs s).
Proof.
  intros Hstep evs. unfold run.
  induction evs as [|e evs IH]; intros s Hs; simpl.
  - exact Hs.
  - apply IH, Hstep, Hs.
Qed.

(** The guard of [sendMessage], read off its argument and the state. *)
Lemma sendMessage_cases (text : jsstring) (s : Session) :
  sendMessage text s =
  if blank text || loading s then s
  else
    {| messages := messages s ++ [{| role := user; content := text |}];
       input := [];
       loading := true;
       hasHandledInitial := hasHandledInitial s;
       requests := requests s ++ [text];
       autoSent := autoSent s |}.
Proof. unfold sendMessage. rewrite not_trim_blank. reflexivity. Qed.

Lemma sendMessage_autoSent (text : jsstring) (s : Session) :
  autoSent (sendMessage text s) = autoSent s.
Proof.
  rewrite sendMessage_cases. destruct (blank text || loading s); reflexivity.
Qed.

Lemma sendMessage_hasHandledInitial (text : jsstring) (s : Session) :
  hasHandledInitial (sendMessage text s) = hasHandledInitial s.
Proof.
  rewrite sendMessage_cases. destruct (blank text || loading s); reflexivity.
Qed.

Lemma oneShot_step (s : Session) (e : Event) : oneShot s -> oneShot (step s e).
Proof.
  unfold oneShot. intros H. destruct e as [q o| v | | o]; simpl.
  - unfold initialQuestionEffect. destruct q as [q|]; [|exact H].
    destruct (truthy_string q && o && negb (hasHandledInitial s)) eqn:G;
      [|exact H].
    rewrite sendMessage_autoSent, sendMessage_hasHandledInitial. simpl.
    apply andb_true_iff in G. destruct G as [_ G].
    apply negb_true_iff in G. rewrite G in H.
    rewrite length_app. simpl. lia.
  - exact H.
  - unfold handleSend.
    rewrite sendMessage_autoSent, sendMessage_hasHandledInitial. exact H.
  - destruct (loading s); [simpl|]; exact H.
Qed.

(** C6: over the whole life of a mounted sidebar, whatever events occur
    and however often the initial-question effect re-runs (with the
    sidebar open or closed, with the same or another [initialQuestion]),
    the effect hands a question to [sendMessage] at most once. *)
Theorem initial_question_sent_at_most_once (evs : list Event) :
  length (autoSent (run evs mount)) <= 1.
Proof.
  assert (H : oneShot (run evs mount)).
  { apply run_invariant.
    - exact oneShot_step.
    - unfold oneShot. simpl. lia. }
  unfold oneShot in H.
  destruct (hasHandledInitial (run evs mount)); lia.
Qed.

(** C7: [sendMessage] called with an empty or white-space-only text, or
    while a request is in flight, leaves the whole session as it was:
    same transcript, no request issued, nothing else changed. *)
Theorem sendMessage_guard_noop (text : jsstring) (s : Session) :
  blank text = true \/ loading s = true ->
  sendMessage text s = s
  /\ messages (sendMessage text s) = messages s
  /\ requests (sendMessage text s) = requests s.
Proof.
  intros H. assert (E : sendMessage text s = s).
  { rewrite sendMessage_cases.
    destruct H as [H | H]; rewrite H; [|rewrite orb_true_r]; reflexivity. }
  rewrite E. repeat split.
Qed.

Lemma sendMessage_guard_noop_witness :
  (blank (lit "   ") = true
   /\ sendMessage (lit "   ") mount = mount)
  /\ (loading (sendMessage (lit "hello") mount) = true
      /\ sendMessage (lit "again") (sendMessage (lit "hello") mount)
         = sendMessage (lit "hello") mount).
Proof.
  split; split.
  - reflexivity.
  - apply (sendMessage_guard_noop (lit "   ") mount). left. reflexivity.
  - reflexivity.
  - apply (sendMessage_guard_noop (lit "again") (sendMessage (lit "hello") mount)).
    right. reflexivity.
Defined.

(** C8: an accepted send whose request fails appends the user message and
    then exactly the fixed apology, has issued exactly one request (no
    retry), and clears the in-flight flag, so that the next non-blank send
    is accepted and issues its request. *)
Theorem failed_request_falls_back (text : jsstring) (s : Session) :
  blank text = false ->
  loading s = false ->
  let s2 := step (sendMessage text s) (Settles Rejected) in
  messages s2
  = messages s
    ++ [{| role := user; content := text |};
        {| role := assistant;
           content := lit "Sorry, I couldn't process that request. Please try again in a moment." |}]
  /\ requests s2 = requests s ++ [text]
  /\ loading s2 = false
  /\ forall next, blank next = false ->
       requests (sendMessage next s2) = requests s2 ++ [next]
       /\ loading (sendMessage next s2) = true.
Proof.
  intros B L s2. subst s2.
  rewrite sendMessage_cases, B, L. simpl.
  rewrite <- app_assoc. simpl.
  split; [reflexivity | split; [reflexivity | split; [reflexivity |]]].
  intros next Bn. rewrite sendMessage_cases, Bn. simpl. split; reflexivity.
Qed.

Lemma failed_request_falls_back_witness :
  messages (step (sendMessage (lit "why?") mount) (Settles Rejected))
  = [introMessage; {| role := user; content := lit "why?" |}; fallbackMessage]
  /\ requests (step (sendMessage (lit "why?") mount) (Settles Rejected))
     = [lit "why?"]
  /\ loading (step (sendMessage (lit "why?") mount) (Settles Rejected)) = false.
Proof.
  destruct (failed_request_falls_back (lit "why?") mount eq_refl eq_refl)
    as [Hm [Hr [Hl _]]].
  split; [exact Hm | split; [exact Hr | exact Hl]].
Defined.

Lemma sendMessage_appends (text : jsstring) (s : Session) :
  exists added, messages (sendMessage text s) = messages s ++ added.
Proof.
  rewrite sendMessage_cases. destruct (blank text || loading s).
  - exists []. symmetry. apply app_nil_r.
  - eexists. reflexivity.
Qed.

(** No event touches a message that is already in the transcript. *)
Lemma step_appends (s : Session) (e : Event) :
  exists added, messages (step s e) = messages s ++ added.
Proof.
  destruct e as [q o| v | | o]; simpl.
  - unfold initialQuestionEffect. destruct q as [q|].
    + destruct (truthy_string q && o && negb (hasHandledInitial s)).
      * match goal with
        | |- context [sendMessage q ?t] =>
            destruct (sendMessage_appends q t) as [a Ha]
        end.
        exists a. exact Ha.
      * exists []. symmetry. apply app_nil_r.
    + exists []. symmetry. apply app_nil_r.
  - exists []. symmetry. apply app_nil_r.
  - apply sendMessage_appends.
  - destruct (loading s).
    + eexists. reflexivity.
    + exists []. symmetry. apply app_nil_r.
Qed.

Lemma sendMessage_shaped (text : jsstring) (s : Session) :
  shaped s -> shaped (sendMessage text s).
Proof.
  intros (done & waiting & Hm & Hl). rewrite sendMessage_cases.
  destruct (blank text || loading s) eqn:G.
  - exists done, waiting. split; assumption.
  - apply orb_false_iff in G. destruct G as [_ G].
    rewrite G in Hl. destruct waiting as [w|]; [discriminate|].
    exists done, (Some text). simpl. split; [|reflexivity].
    rewrite Hm. unfold transcript. simpl. rewrite app_nil_r. reflexivity.
Qed.

Lemma replyOf_assistant (o : ChatOutcome) :
  replyOf o = {| role := assistant; content := content (replyOf o) |}.
Proof. destruct o; reflexivity. Qed.

Lemma step_shaped (s : Session) (e : Event) : shaped s -> shaped (step s e).
Proof.
  intros H. destruct e as [q o| v | | o]; simpl.
  - unfold initialQuestionEffect. destruct q as [q|]; [|exact H].
    destruct (truthy_string q && o && negb (hasHandledInitial s)); [|exact H].
    apply sendMessage_shaped. exact H.
  - exact H.
  - apply sendMessage_shaped. exact H.
  - destruct (loading s) eqn:L; [|exact H].
    destruct H as (done & waiting & Hm & Hl). rewrite L in Hl.
    destruct waiting as [w|]; [|discriminate].
    exists (done ++ [(w, content (replyOf o))]), None.
    split; [|reflexivity]. simpl.
    fold (replyOf o). rewrite Hm. unfold transcript. simpl.
    rewrite flat_map_app. simpl. rewrite !app_nil_r, <- app_assoc. simpl.
    rewrite <- replyOf_assistant. reflexivity.
Qed.

Lemma reachable_shaped (evs : list Event) : shaped (run evs mount).
Proof.
  apply run_invariant.
  - exact step_shaped.
  - exists [], None. split; reflexivity.
Qed.

Lemma turns_done (done : list (jsstring * jsstring)) :
  turns (flat_map turn done) = true.
Proof. induction done as [|qa d IH]; simpl; [reflexivity | exact IH]. Qed.

Lemma answered_done (done : list (jsstring * jsstring)) :
  answered (flat_map turn done) = true.
Proof. induction done as [|qa d IH]; simpl; [reflexivity | exact IH]. Qed.

Lemma odd_done (done : list (jsstring * jsstring)) :
  Nat.odd (S (length (flat_map turn done))) = true.
Proof. induction done as [|qa d IH]; simpl; [reflexivity | exact IH]. Qed.

(** C10: the transcript of a mounted sidebar starts as the one fixed
    introduction; no event changes or drops a message already there; a
    send is either refused by the guard or, once its request settles, has
    added exactly the user message followed by one assistant message;
    whenever no request is in flight the transcript has odd length and
    every user message is directly followed by exactly one assistant
    message, and while one is in flight only the last question is still
    unanswered. *)
Theorem transcript_shape (evs : list Event) (e : Event)
    (text : jsstring) (o : ChatOutcome) :
  let s := run evs mount in
  messages mount = [introMessage]
  /\ (exists added, messages (step s e) = messages s ++ added)
  /\ (if blank text || loading s then sendMessage text s = s
      else
        messages (step (sendMessage text s) (Settles o))
        = messages s ++ [{| role := user; content := text |};
                         {| role := assistant; content := content (replyOf o) |}])
  /\ (if loading s then
        exists done q, messages s = transcript done (Some q)
      else
        Nat.odd (length (messages s)) = true
        /\ answered (messages s) = true
        /\ turns (tl (messages s)) = true).
Proof.
  intros s. split; [reflexivity|]. split; [apply step_appends|]. split.
  - rewrite sendMessage_cases. destruct (blank text || loading s); [reflexivity|].
    simpl. rewrite <- app_assoc. simpl. fold (replyOf o).
    rewrite <- replyOf_assistant. reflexivity.
  - destruct (reachable_shaped evs) as (done & waiting & Hm & Hl).
    fold s in Hm, Hl. rewrite Hl.
    destruct waiting as [w|]; simpl.
    + exists done, w. exact Hm.
    + rewrite Hm. unfold transcript. rewrite app_nil_r. simpl.
      split; [apply odd_done|]. split; [apply answered_done | apply turns_done].
Qed.

Example sampleSession_runs :
  messages (run sampleSession mount)
  = [introMessage;
     {| role := user; content := lit "why?" |};
     {| role := assistant; content := lit "because" |};
     {| role := user; content := lit "what next?" |};
     fallbackMessage]
  /\ requests (run sampleSession mount) = [lit "why?"; lit "what next?"]
  /\ autoSent (run sampleSession mount) = [lit "what next?"]
  /\ loading (run sampleSession mount) = false.
Proof. repeat split. Qed.

End ChatFacts.

(** ** Polling *)

Module PollFacts.
Import Js Api ResultsPage.

(** *** [pollForResults] of lib/api.ts *)

(** The loop never fetches more often than it has iterations left. *)
Lemma pollLoop_fetch_bound (server : nat -> Fetched) (ms : Z) (n a : nat) :
  fetchCount (fst (pollLoop server ms n a)) <= n.
Proof.
  revert a. induction n as [|n IH]; intros a; simpl.
  - apply Nat.le_refl.
  - specialize (IH (S a)).
    destruct (pollLoop server ms n (S a)) as [rest out]. simpl in IH.
    destruct (getResults (server a)) as [r|e].
    + destruct (status r); unfold fetchCount in *; simpl; lia.
    + destruct (rethrows e); unfold fetchCount in *; simpl; lia.
Qed.

(** With its default budget, [pollForResults] fetches at most 60 times. *)
Lemma pollForResults_at_most_60 (server : nat -> Fetched) :
  fetchCount (fst (pollForResults server defaultMaxAttempts defaultIntervalMs))
  <= 60.
Proof. apply pollLoop_fetch_bound. Qed.

(** When no attempt gets a terminal answer, the loop uses up its
    iterations and rejects with the time-out error. *)
Lemma pollLoop_times_out (server : nat -> Fetched) (ms : Z) (n a : nat) :
  (forall k, a <= k < a + n -> keepsWaiting (server k) = true) ->
  snd (pollLoop server ms n a) = Throws timedOut
  /\ fetchCount (fst (pollLoop server ms n a)) = n.
Proof.
  revert a. induction n as [|n IH]; intros a Hk; simpl.
  - split; reflexivity.
  - assert (Ha : keepsWaiting (server a) = true) by (apply Hk; lia).
    destruct (IH (S a)) as [Ho Hc]; [intros k Hr; apply Hk; lia|].
    destruct (pollLoop server ms n (S a)) as [rest out]. simpl in Ho, Hc.
    unfold keepsWaiting in Ha.
    destruct (getResults (server a)) as [r|e].
    + destruct (status r); try discriminate; simpl;
        (split; [exact Ho | unfold fetchCount in *; simpl; congruence]).
    + apply negb_true_iff in Ha. rewrite Ha. simpl.
      split; [exact Ho | unfold fetchCount in *; simpl; congruence].
Qed.

(** A [failed] payload makes [pollForResults] reject at once with the
    analysis-failed error, after the one fetch that brought it. *)
Lemma pollLoop_stops_on_failed (server : nat -> Fetched) (ms : Z) (n a : nat)
    (r : AnalysisResult) :
  server a = Ok2xx r -> status r = failed ->
  pollLoop server ms (S n) a = ([Fetch a], Throws analysisFailed).
Proof. intros Hs Hf. simpl. rewrite Hs. simpl. rewrite Hf. reflexivity. Qed.

(** *** The polling effect of the results page *)

Lemma stillProcessing_from (n k : nat) :
  pollRun (stillProcessing n) (waiting k) = waiting (n + k).
Proof.
  revert k. induction n as [|n IH]; intros k.
  - reflexivity.
  - change (pollRun (stillProcessing (S n)) (waiting k))
      with (pollRun (stillProcessing n) (waiting (S k))).
    rewrite IH. f_equal. lia.
Qed.

(** The page polls for as long as the server says "processing": after
    [n] such answers the effect has its fetch number [n + 1] in flight and
    the page still shows the loading state. *)
Lemma page_poll_unbounded (n : nat) :
  pollRun (stillProcessing n) (effect initialPage) = waiting n.
Proof.
  change (effect initialPage) with (waiting 0).
  rewrite stillProcessing_from. f_equal. lia.
Qed.

(** C1, on the results page: after 60 fetches that all found the job
    still processing, the polling effect issues fetch number 61 and the
    page stays in the loading state with no error; nothing in the effect
    counts attempts against a budget. *)
Theorem page_poll_issues_61st_fetch :
  let c := pollRun (stillProcessing 60) (effect initialPage) in
  fetches (snd c) = 61
  /\ inFlight (snd c) = true
  /\ state (fst c) = Loading
  /\ error (fst c) = None
  /\ pollCount (fst c) = 60.
Proof.
  intros c. subst c. rewrite page_poll_unbounded.
  repeat split.
Qed.

(** [fetchResults] treats a [failed] payload like one that is still
    processing: no state is set and polling is to go on. *)
Lemma fetchResults_failed (data : AnalysisResult) (p : Page) :
  status data = failed -> fetchResults (Returns data) p = (p, false).
Proof. intros H. unfold fetchResults. rewrite H. reflexivity. Qed.

(** C2, on the results page: a first fetch that returns a payload with
    status [failed] leaves the page loading with no error, counts as one
    more poll and arms the 2000 ms timer; when the timer fires a second
    fetch goes out. *)
Theorem page_poll_ignores_failed_status :
  let c1 := pollStep (effect initialPage)
              (FetchSettles (Ok2xx (bareResult failed))) in
  let c2 := pollStep c1 TimerFires in
  state (fst c1) = Loading
  /\ error (fst c1) = None
  /\ pollCount (fst c1) = 1
  /\ timeout (snd c1) = Some 2000%Z
  /\ fetches (snd c1) = 1
  /\ fetches (snd c2) = 2
  /\ inFlight (snd c2) = true.
Proof. repeat split. Qed.

(** A cancelled effect issues no fetch and does not touch the poll
    counter, whatever happens afterwards. *)
Lemma cancelled_step (c : Config) (i : PollInput) :
  cancelled (snd c) = true ->
  cancelled (snd (pollStep c i)) = true
  /\ fetches (snd (pollStep c i)) = fetches (snd c)
  /\ pollCount (fst (pollStep c i)) = pollCount (fst c)
  /\ timeout (snd (pollStep c i)) = timeout (snd c) \/
  cancelled (snd (pollStep c i)) = true
  /\ fetches (snd (pollStep c i)) = fetches (snd c)
  /\ pollCount (fst (pollStep c i)) = pollCount (fst c)
  /\ timeout (snd (pollStep c i)) = None.
Proof.
  destruct c as [p e]. simpl. intros C.
  destruct i as [f| |]; simpl.
  - left. destruct (inFlight e); [|auto].
    unfold poll_resume. destruct (fetchResults (getResults f) p) as [p' done] eqn:F.
    rewrite C, andb_false_r. simpl.
    repeat split; try assumption.
    unfold fetchResults in F.
    destruct (getResults f) as [d|err].
    + destruct (status d); inversion F; reflexivity.
    + destruct (instanceofError err && includes (errMessage err) (lit "still processing"));
        inversion F; reflexivity.
  - destruct (timeout e) eqn:T.
    + right. unfold poll. simpl. rewrite C. simpl. auto.
    + left. simpl. auto.
  - right. auto.
Qed.

Lemma cancelled_run (inputs : list PollInput) (c : Config) :
  cancelled (snd c) = true ->
  fetches (snd (pollRun inputs c)) = fetches (snd c)
  /\ pollCount (fst (pollRun inputs c)) = pollCount (fst c).
Proof.
  revert c. induction inputs as [|i inputs IH]; intros c C.
  - split; reflexivity.
  - change (pollRun (i :: inputs) c) with (pollRun inputs (pollStep c i)).
    destruct (cancelled_step c i C) as [(C' & F & P & _) | (C' & F & P & _)];
      destruct (IH _ C') as [F' P']; split; congruence.
Qed.

(** What a settling fetch does to the page does not depend on the
    [cancelled] flag, as long as [fetchResults] reports it is done. *)
Lemma poll_resume_page (o : Settled AnalysisResult) (p : Page) (e : PollEffect) :
  snd (fetchResults o p) = true ->
  fst (poll_resume o (p, e)) = fst (fetchResults o p).
Proof.
  intros H. unfold poll_resume.
  destruct (fetchResults o p) as [p' done]. simpl in H. subst done.
  reflexivity.
Qed.

(** C3, on the results page: the effect starts and has its fetch in
    flight, the cleanup runs, and then the fetch settles.  A [completed]
    payload still stores the result and moves the page to the ready state,
    and a server error still stores its message and moves the page to the
    error state: [fetchResults] applies its updates without looking at the
    [cancelled] flag. *)
Theorem cancelled_poll_still_updates_page :
  let c0 := effect initialPage in
  let c1 := pollStep c0 CleanupRuns in
  let c2 := pollStep c1 (FetchSettles (Ok2xx (bareResult completed))) in
  let c2' := pollStep c1 (FetchSettles (NotOk 500 None)) in
  inFlight (snd c0) = true
  /\ cancelled (snd c1) = true
  /\ state (fst c1) = Loading
  /\ result (fst c1) = None
  /\ state (fst c2) = Ready
  /\ result (fst c2) = Some (bareResult completed)
  /\ state (fst c2') = Error
  /\ error (fst c2') = Some (lit "Unknown error").
Proof. repeat split. Qed.

Example pollForResults_third_time :
  pollForResults thirdTime defaultMaxAttempts defaultIntervalMs
  = ([Fetch 0; OnProgress 1; Sleep 2000; Fetch 1; OnProgress 2; Sleep 2000;
      Fetch 2],
     Returns (bareResult completed)).
Proof. reflexivity. Qed.

Example page_poll_third_time :
  let c := pollRun [FetchSettles (thirdTime 0); TimerFires;
                    FetchSettles (thirdTime 1); TimerFires;
                    FetchSettles (thirdTime 2)] (effect initialPage) in
  state (fst c) = Ready
  /\ result (fst c) = Some (bareResult completed)
  /\ pollCount (fst c) = 2
  /\ fetches (snd c) = 3
  /\ timeout (snd c) = None
  /\ inFlight (snd c) = false.
Proof. repeat split. Qed.

End PollFacts.

(** ** Perspective visibility *)

Module VisibilityFacts.
Import Js Api ResultsPage.

Lemma showFinancial_truthy (r : AnalysisResult) (v : Perspective) :
  truthy (showFinancial (Some r) v)
  = seesNumbers v && present (financialImpact r).
Proof.
  unfold showFinancial, financialImpactOf, and_.
  destruct (financialImpact r); destruct v; reflexivity.
Qed.

Lemma showRecommendedQuestions_truthy (r : AnalysisResult) :
  truthy (showRecommendedQuestions (Some r)) = nonEmpty (suggestedQuestions r).
Proof.
  unfold showRecommendedQuestions, suggestedQuestionsOf, and_.
  destruct (suggestedQuestions r) as [[|q qs]|]; reflexivity.
Qed.

(** What [cards] renders for a ready page. *)
Lemma shown_cards (r : AnalysisResult) (v : Perspective) :
  let p := readyPage r v in
  shown QuantEvidenceCard p = seesNumbers v
  /\ shown QualEvidenceCard p = seesPeople v
  /\ shown ABTestCard p = seesPeople v
  /\ shown MetricsCard p = seesNumbers v
  /\ shown FinancialImpactCard p
     = seesNumbers v && present (financialImpact r)
  /\ shown ProblemSummaryCard p = true
  /\ shown ActionsCard p = true
  /\ shown RecommendedQuestions p = nonEmpty (suggestedQuestions r).
Proof.
  unfold shown, cards, readyPage, showFinancial, showRecommendedQuestions,
    financialImpactOf, suggestedQuestionsOf.
  simpl.
  destruct (financialImpact r), (suggestedQuestions r) as [[|q qs]|], v;
    repeat split.
Qed.

(** C4: for every result [r] the page shows and every perspective [v],
    the flags and the rendered cards follow the fixed table: quantitative
    evidence and metrics for pm and cfo, qualitative evidence and A/B tests
    for pm and designer, financial impact for pm and cfo and only when [r]
    has the field, the problem summary and the actions always, the
    suggested questions exactly when [r] carries a non-empty list. *)
Theorem visibility_table (r : AnalysisResult) (v : Perspective) :
  let p := readyPage r v in
  (truthy (showQuantEvidence v) = seesNumbers v
   /\ truthy (showQualEvidence v) = seesPeople v
   /\ truthy (showABTests v) = seesPeople v
   /\ truthy (showMetrics v) = seesNumbers v
   /\ truthy (showFinancial (Some r) v)
      = seesNumbers v && present (financialImpact r)
   /\ truthy (showRecommendedQuestions (Some r))
      = nonEmpty (suggestedQuestions r))
  /\ (shown QuantEvidenceCard p = seesNumbers v
      /\ shown QualEvidenceCard p = seesPeople v
      /\ shown ABTestCard p = seesPeople v
      /\ shown MetricsCard p = seesNumbers v
      /\ shown FinancialImpactCard p
         = seesNumbers v && present (financialImpact r)
      /\ shown ProblemSummaryCard p = true
      /\ shown ActionsCard p = true
      /\ shown RecommendedQuestions p = nonEmpty (suggestedQuestions r)).
Proof.
  intros p. split.
  - repeat split; try (destruct v; reflexivity).
    + apply showFinancial_truthy.
    + apply showRecommendedQuestions_truthy.
  - apply shown_cards.
Qed.

(** Without the field, financial impact is hidden from all three
    perspectives. *)
Lemma financial_hidden_when_absent (r : AnalysisResult) (v : Perspective) :
  financialImpact r = None ->
  shown FinancialImpactCard (readyPage r v) = false.
Proof.
  intros H. destruct (shown_cards r v) as (_ & _ & _ & _ & F & _).
  rewrite F, H. apply andb_false_r.
Qed.

Example cfo_view :
  cards (readyPage fullResult cfo)
  = [ProblemSummaryCard; FinancialImpactCard; QuantEvidenceCard; ActionsCard;
     MetricsCard; RecommendedQuestions].
Proof. reflexivity. Qed.

Example designer_view :
  cards (readyPage fullResult designer)
  = [ProblemSummaryCard; QualEvidenceCard; ActionsCard; ABTestCard;
     RecommendedQuestions].
Proof. reflexivity. Qed.

End VisibilityFacts.

(** ** PDF export *)

Module ExportFacts.
Import Js Api ResultsPage ExportPDF.
Local Open Scope Q_scope.

Lemma Qltb_true (a b : Q) : Qltb a b = true <-> a < b.
Proof.
  unfold Qltb. rewrite negb_true_iff. split; intros H.
  - apply Qnot_le_lt. intros L. apply Qle_bool_iff in L. congruence.
  - destruct (Qle_bool b a) eqn:E; [|reflexivity].
    apply Qle_bool_iff in E. exfalso. apply (Qlt_not_le _ _ H E).
Qed.

Lemma Qltb_false (a b : Q) : Qltb a b = false <-> b <= a.
Proof.
  unfold Qltb. rewrite negb_false_iff. apply Qle_bool_iff.
Qed.

Lemma reach_scale (n : nat) (h : Q) : reach n h == inject_Z (Z.of_nat n) * h.
Proof.
  induction n as [|n IH].
  - simpl. ring.
  - cbn [reach]. rewrite IH, Nat2Z.inj_succ. unfold Z.succ.
    rewrite inject_Z_plus. ring.
Qed.

(** Any height is reached by enough pages of positive height. *)
Lemma reach_any (h x : Q) : 0 < h -> exists n, x <= reach n h.
Proof.
  intros Hh. exists (Z.to_nat (Qceiling (x / h))).
  rewrite reach_scale.
  assert (Hx : x == (x / h) * h) by (field; intros E; rewrite E in Hh; discriminate).
  rewrite Hx at 1. apply Qmult_le_compat_r; [|apply Qlt_le_weak, Hh].
  apply Qle_trans with (inject_Z (Qceiling (x / h))); [apply Qle_ceiling|].
  rewrite <- Zle_Qle. lia.
Qed.

(** The loop terminates when a page has positive height. *)
Lemma enoughFuel_exists (env : Env) :
  0 < pdfHeight env -> exists fuel, enoughFuel env fuel.
Proof. intros H. apply reach_any, H. Qed.

Section NoThrow.

Variable env : Env.
Hypothesis quiet : throwsAt env = None.

Lemma call_quiet (e : ExportEvent) (s : St) :
  call env e s
  = (Val tt, {| page := page s; calls := S (calls s); log := log s ++ [e] |}).
Proof. unfold call. rewrite quiet. reflexivity. Qed.

(** Without a throw and with enough fuel the loop ends, having added one
    page per position of [slices]. *)
Lemma addPages_quiet (fuel : nat) :
  forall (heightLeft : Q) (s : St),
    heightLeft <= reach fuel (pdfHeight env) ->
    exists ys,
      slices (imgRenderHeight env) (pdfHeight env) heightLeft ys
      /\ addPages env fuel heightLeft s
         = (Val tt, {| page := page s;
                       calls := (calls s + 2 * length ys)%nat;
                       log := log s ++ flat_map (pageOf env) ys |}).
Proof.
  induction fuel as [|fuel IH]; intros hl s Hr.
  - exists []. simpl in Hr. simpl.
    assert (E : Qltb 0 hl = false) by (apply Qltb_false, Hr).
    rewrite E. split; [exact Hr|].
    unfold ret. rewrite Nat.add_0_r, app_nil_r. destruct s; reflexivity.
  - cbn [addPages]. destruct (Qltb 0 hl) eqn:E.
    + apply Qltb_true in E.
      unfold bind at 1. rewrite call_quiet.
      unfold bind at 1. rewrite call_quiet. cbn [page calls log].
      destruct (IH (hl - pdfHeight env)
                  {| page := page s; calls := S (S (calls s));
                     log := (log s ++ [AddPage])
                            ++ [AddImage margin (hl - imgRenderHeight env + margin)
                                  (contentWidth env) (imgRenderHeight env)] |})
        as (ys & Hs & Hrun).
      { cbn [reach] in Hr. lra. }
      exists ((hl - imgRenderHeight env + margin) :: ys).
      split; [simpl; auto|].
      rewrite Hrun. cbn [page calls log length flat_map pageOf].
      f_equal. f_equal; [lia|].
      rewrite <- !app_assoc. reflexivity.
    + apply Qltb_false in E. exists []. split; [exact E|].
      unfold ret. simpl. rewrite Nat.add_0_r, app_nil_r. destruct s; reflexivity.
Qed.

(** A whole export in which nothing throws: the first page, the pages of
    the loop, the save, and the exporting flag back to [false]. *)
Lemma handleExportPDF_quiet (fuel : nat) (p : Page) :
  refCurrent env = true ->
  enoughFuel env fuel ->
  exists ys,
    slices (imgRenderHeight env) (pdfHeight env)
      (imgRenderHeight env - usableHeight env) ys
    /\ handleExportPDF env fuel (start p)
       = (Val tt,
          {| page := setIsExporting false (setIsExporting true p);
             calls := (8 + 2 * length ys)%nat;
             log := firstPage env ++ flat_map (pageOf env) ys
                    ++ [Save (fileName env)] |}).
Proof.
  intros Href Hfuel. unfold handleExportPDF. rewrite Href. cbn [negb].
  unfold bind at 1, update at 1, start. cbn [page calls log].
  unfold try_catch_finally, exportBody.
  repeat (unfold bind at 1; rewrite call_quiet; cbn [page calls log app]).
  unfold bind at 1.
  match goal with
  | |- context [addPages env fuel ?h ?s] =>
      destruct (addPages_quiet fuel h s Hfuel) as (ys & Hs & Hrun)
  end.
  exists ys. split; [exact Hs|].
  rewrite Hrun. cbn [page calls log].
  rewrite call_quiet. cbn [page calls log update].
  unfold firstPage. f_equal. f_equal; try lia.
  rewrite <- app_assoc. reflexivity.
Qed.

End NoThrow.

Lemma offsets_app (a b : list ExportEvent) :
  offsets (a ++ b) = offsets a ++ offsets b.
Proof.
  induction a as [|e a IH]; simpl; [reflexivity|].
  destruct e; simpl; rewrite ?IH; reflexivity.
Qed.

Lemma offsets_pages (env : Env) (ys : list Q) :
  offsets (flat_map (pageOf env) ys) = ys.
Proof. induction ys as [|y ys IH]; simpl; [|rewrite IH]; reflexivity. Qed.

Lemma offsets_document (env : Env) (ys : list Q) (f : jsstring) :
  offsets (firstPage env ++ flat_map (pageOf env) ys ++ [Save f]) = margin :: ys.
Proof.
  rewrite !offsets_app, offsets_pages. simpl. rewrite app_nil_r. reflexivity.
Qed.

Lemma addPage_count (env : Env) (ys : list Q) :
  length (filter isAddPage (flat_map (pageOf env) ys)) = length ys.
Proof. induction ys as [|y ys IH]; simpl; [|rewrite IH]; reflexivity. Qed.

Lemma pageCount_document (env : Env) (ys : list Q) (f : jsstring) :
  pageCount (firstPage env ++ flat_map (pageOf env) ys ++ [Save f])
  = S (length ys).
Proof.
  unfold pageCount. rewrite !filter_app, !length_app, addPage_count.
  simpl. lia.
Qed.

(** Inside the loop every page sits one full page height above the one
    before. *)
Lemma slices_stepsBy (h ph : Q) (ys : list Q) :
  forall hl, slices h ph hl ys -> stepsBy ph ys.
Proof.
  induction ys as [|y ys IH]; intros hl Hs; [exact I|].
  destruct Hs as (_ & Hy & Hs'). destruct ys as [|y' ys']; [exact I|].
  split; [|exact (IH _ Hs')].
  destruct Hs' as (_ & Hy' & _). subst. ring.
Qed.

Lemma slices_decreasing (h ph : Q) (ys : list Q) :
  0 < ph -> forall hl, slices h ph hl ys -> decreasing ys.
Proof.
  intros Hp. induction ys as [|y ys IH]; intros hl Hs; [exact I|].
  destruct Hs as (_ & Hy & Hs'). destruct ys as [|y' ys']; [exact I|].
  split; [|exact (IH _ Hs')].
  destruct Hs' as (_ & Hy' & _). subst. lra.
Qed.

(** The loop adds no page to an image that fits the usable height. *)
Lemma slices_fits (h ph hl : Q) (ys : list Q) :
  hl <= 0 -> slices h ph hl ys -> ys = [].
Proof.
  intros Hl Hs. destruct ys as [|y ys]; [reflexivity|].
  destruct Hs as (Hpos & _). lra.
Qed.

(** It adds exactly two when [heightLeft] lies between one and two page
    heights. *)
Lemma slices_two (h ph hl : Q) (ys : list Q) :
  ph < hl -> hl <= 2 * ph -> 0 < ph -> slices h ph hl ys -> length ys = 2%nat.
Proof.
  intros H1 H2 Hp Hs.
  destruct ys as [|y0 ys]; [simpl in Hs; lra|].
  destruct Hs as (_ & _ & Hs).
  destruct ys as [|y1 ys]; [simpl in Hs; lra|].
  destruct Hs as (_ & _ & Hs).
  destruct ys as [|y2 ys]; [reflexivity|].
  destruct Hs as (Hpos & _). lra.
Qed.

(** What the pagination loop does with a capture of positive width, on
    a page taller than its two margins, when nothing throws: the export
    always ends; an image that renders no taller than the usable page height
    gives exactly one page; one that renders 2.5 usable heights tall gives
    exactly 3 pages (on any page taller than 60, A4 among them); the offsets
    decrease strictly, by the usable height (line 92) from page 1 to page 2
    and by the full page height (line 98) from then on. *)
Theorem export_pagination (env : Env) (p : Page) :
  refCurrent env = true ->
  throwsAt env = None ->
  0 < imgWidth env ->
  margin * 2 < pdfHeight env ->
  (exists fuel, enoughFuel env fuel)
  /\ forall fuel, enoughFuel env fuel ->
       let r := handleExportPDF env fuel (start p) in
       let ys := offsets (log (snd r)) in
       fst r = Val tt
       /\ length ys = pageCount (log (snd r))
       /\ (imgRenderHeight env <= usableHeight env ->
           pageCount (log (snd r)) = 1%nat)
       /\ (imgRenderHeight env == (5 # 2) * usableHeight env ->
           60 < pdfHeight env ->
           pageCount (log (snd r)) = 3%nat)
       /\ decreasing ys
       /\ laidOut env ys.
Proof.
  intros Href Hq _ Hm. unfold margin in Hm.
  split; [apply enoughFuel_exists; lra|].
  intros fuel Hfuel r ys. subst ys r.
  destruct (handleExportPDF_quiet env Hq fuel p Href Hfuel) as (ys & Hs & Hrun).
  rewrite Hrun. cbn [fst snd log].
  rewrite offsets_document, pageCount_document.
  split; [reflexivity|]. split; [reflexivity|]. split; [|split; [|split]].
  - intros Hfit. assert (E : ys = []).
    { refine (slices_fits _ _ _ ys _ Hs). lra. }
    rewrite E. reflexivity.
  - intros Htall Hpage. unfold usableHeight, margin in *.
    assert (E : length ys = 2%nat).
    { refine (slices_two _ _ _ ys _ _ _ Hs); lra. }
    rewrite E. reflexivity.
  - destruct ys as [|y ys]; [exact I|].
    split; [|refine (slices_decreasing _ _ (y :: ys) _ _ Hs); lra].
    destruct Hs as (_ & Hy & _). subst y. unfold usableHeight, margin in *. lra.
  - split; [reflexivity|]. destruct ys as [|y ys]; [exact I|].
    split; [|exact (slices_stepsBy _ _ _ _ Hs)].
    destruct Hs as (_ & Hy & _). subst y. ring.
Qed.

Lemma export_pagination_witness :
  pageCount (log (snd (handleExportPDF tallImage 2 (start initialPage)))) = 3%nat
  /\ laidOut tallImage
       (offsets (log (snd (handleExportPDF tallImage 2 (start initialPage))))).
Proof.
  assert (Hm : margin * 2 < pdfHeight tallImage) by reflexivity.
  assert (Hf : enoughFuel tallImage 2) by (unfold enoughFuel, Qle; simpl; lia).
  destruct (export_pagination tallImage initialPage eq_refl eq_refl
              eq_refl Hm)
    as [_ H].
  destruct (H 2%nat Hf) as (_ & _ & _ & H3 & _ & HL).
  split; [apply H3|exact HL].
  - unfold Qeq. simpl. lia.
  - reflexivity.
Defined.

(** C5, on A4 for the image that renders 2.5 usable heights tall: the
    export makes its 3 pages with the image at 10, -267 and -564.  The loop
    takes the usable height off [heightLeft] after page 1 and the full page
    height after every later page, so page 2 lies 277 and page 3 lies 297
    above the page before: the offsets do not step by one page height, under
    either reading of it. *)
Lemma pagination_steps_are_not_uniform :
  fst tallExport = Val tt
  /\ imgRenderHeight tallImage == (5 # 2) * usableHeight tallImage
  /\ pageCount (log (snd tallExport)) = 3%nat
  /\ map Qred (offsets (log (snd tallExport))) = [10; -267; -564]
  /\ ~ stepsBy (pdfHeight tallImage) (offsets (log (snd tallExport)))
  /\ ~ stepsBy (usableHeight tallImage) (offsets (log (snd tallExport))).
Proof.
  split; [reflexivity|]. split; [reflexivity|]. split; [reflexivity|].
  split; [reflexivity|]. split.
  - intros [H _]. vm_compute in H. discriminate H.
  - intros [_ [H _]]. vm_compute in H. discriminate H.
Qed.

(** *** Failure of the export *)

Lemma existsb_snoc (l : list ExportEvent) (e : ExportEvent) :
  existsb isSave (l ++ [e]) = existsb isSave l || isSave e.
Proof. rewrite existsb_app. simpl. rewrite orb_false_r. reflexivity. Qed.

Lemma call_savesNothing (env : Env) (e : ExportEvent) :
  isSave e = false -> savesNothing (call env e).
Proof.
  intros He s Hs. unfold call, noSave in *.
  destruct (throwsAt env) as [k|]; [destruct (calls s =? k)%nat|];
    cbn [snd log]; rewrite ?existsb_snoc, ?He, ?orb_false_r; exact Hs.
Qed.

Lemma call_throwsUnsaved (env : Env) (e : ExportEvent) :
  throwsUnsaved (call env e).
Proof.
  intros s Hs. unfold call.
  destruct (throwsAt env) as [k|]; [destruct (calls s =? k)%nat|];
    cbn [fst snd log]; intros H; try discriminate H.
  exact Hs.
Qed.

Lemma bind_savesNothing (m k : M unit) :
  savesNothing m -> savesNothing k -> savesNothing (m ;; k).
Proof.
  intros Hm Hk s Hs. unfold bind. specialize (Hm s Hs).
  destruct (m s) as [[a| |] s']; cbn [snd] in *; [apply Hk|..]; exact Hm.
Qed.

Lemma bind_throwsUnsaved (m k : M unit) :
  savesNothing m -> throwsUnsaved k -> throwsUnsaved (m ;; k).
Proof.
  intros Hm Hk s Hs. unfold bind. specialize (Hm s Hs).
  destruct (m s) as [[a| |] s']; cbn [fst snd] in *; intros H.
  - apply Hk; assumption.
  - exact Hm.
  - discriminate H.
Qed.

Lemma addPages_savesNothing (env : Env) (fuel : nat) :
  forall hl, savesNothing (addPages env fuel hl).
Proof.
  induction fuel as [|fuel IH]; intros hl; cbn [addPages];
    destruct (Qltb 0 hl); try (intros s Hs; exact Hs).
  apply bind_savesNothing; [apply call_savesNothing; reflexivity|].
  apply bind_savesNothing; [apply call_savesNothing; reflexivity|].
  apply IH.
Qed.

(** A [try] block that throws has not reached a completed [save]. *)
Lemma exportBody_throwsUnsaved (env : Env) (fuel : nat) :
  throwsUnsaved (exportBody env fuel).
Proof.
  unfold exportBody.
  repeat (apply bind_throwsUnsaved; [apply call_savesNothing; reflexivity|]).
  apply bind_throwsUnsaved; [apply addPages_savesNothing|].
  apply call_throwsUnsaved.
Qed.

Lemma call_keepsPage (env : Env) (e : ExportEvent) : keepsPage (call env e).
Proof.
  intros s. unfold call.
  destruct (throwsAt env) as [k|]; [destruct (calls s =? k)%nat|]; reflexivity.
Qed.

Lemma bind_keepsPage (m k : M unit) :
  keepsPage m -> keepsPage k -> keepsPage (m ;; k).
Proof.
  intros Hm Hk s. unfold bind. specialize (Hm s).
  destruct (m s) as [[a| |] s']; cbn [snd] in *; [rewrite Hk|..]; exact Hm.
Qed.

Lemma addPages_keepsPage (env : Env) (fuel : nat) :
  forall hl, keepsPage (addPages env fuel hl).
Proof.
  induction fuel as [|fuel IH]; intros hl; cbn [addPages];
    destruct (Qltb 0 hl); try (intros s; reflexivity).
  repeat (apply bind_keepsPage; [apply call_keepsPage|]).
  apply IH.
Qed.

(** The [try] block sets no state of the page. *)
Lemma exportBody_keepsPage (env : Env) (fuel : nat) :
  keepsPage (exportBody env fuel).
Proof.
  unfold exportBody.
  repeat (apply bind_keepsPage; [apply call_keepsPage|]).
  apply bind_keepsPage; [apply addPages_keepsPage|apply call_keepsPage].
Qed.

Lemma call_throwEndsIt (env : Env) (e : ExportEvent) :
  throwEndsIt env (call env e).
Proof.
  intros s. unfold call.
  destruct (throwsAt env) as [k|]; [destruct (calls s =? k)%nat eqn:E|];
    cbn [fst snd calls]; intros H; try discriminate H.
  apply Nat.eqb_eq in E. exists k. split; congruence.
Qed.

Lemma bind_throwEndsIt (env : Env) (m k : M unit) :
  throwEndsIt env m -> throwEndsIt env k -> throwEndsIt env (m ;; k).
Proof.
  intros Hm Hk s. unfold bind. specialize (Hm s).
  destruct (m s) as [[a| |] s']; cbn [fst snd] in *; intros H.
  - apply Hk, H.
  - apply Hm, H.
  - discriminate H.
Qed.

Lemma addPages_throwEndsIt (env : Env) (fuel : nat) :
  forall hl, throwEndsIt env (addPages env fuel hl).
Proof.
  induction fuel as [|fuel IH]; intros hl; cbn [addPages];
    destruct (Qltb 0 hl); try (intros s H; discriminate H).
  repeat (apply bind_throwEndsIt; [apply call_throwEndsIt|]).
  apply IH.
Qed.

(** Nothing is called after the call that throws. *)
Lemma exportBody_throwEndsIt (env : Env) (fuel : nat) :
  throwEndsIt env (exportBody env fuel).
Proof.
  unfold exportBody.
  repeat (apply bind_throwEndsIt; [apply call_throwEndsIt|]).
  apply bind_throwEndsIt; [apply addPages_throwEndsIt|apply call_throwEndsIt].
Qed.

(** A throw of the capture, of the encoding or of any jsPDF call up to
    the first [addImage] ends the [try] block. *)
Lemma early_throw (env : Env) (fuel k : nat) (p : Page) :
  throwsAt env = Some k -> (k <= 6)%nat ->
  fst (exportBody env fuel (start p)) = Exn.
Proof.
  intros Hk Hle. unfold exportBody, bind, call, start. rewrite Hk.
  do 7 (destruct k as [|k]; [reflexivity|]). lia.
Qed.

(** C9: when the [try] block of the export throws (the capture, the
    encoding or a jsPDF call failed), the handler itself completes; the
    call that threw is the last library call made and no [save] is in the
    log of what happened; the log ends with the console message and the
    alert; and of the page state only the exporting flag was written,
    which is [false] again, so phase and result are as before. *)
Theorem export_failure_is_contained (env : Env) (fuel : nat) (p : Page) :
  refCurrent env = true ->
  fst (exportBody env fuel (start (setIsExporting true p))) = Exn ->
  let r := handleExportPDF env fuel (start p) in
  fst r = Val tt
  /\ (exists k, throwsAt env = Some k /\ calls (snd r) = S k)
  /\ existsb isSave (log (snd r)) = false
  /\ (exists before,
        log (snd r)
        = before ++ [ConsoleError;
                     Alert (lit "Failed to generate PDF. Please try again.")])
  /\ page (snd r) = setIsExporting false p
  /\ isExporting (page (snd r)) = false
  /\ state (page (snd r)) = state p
  /\ result (page (snd r)) = result p.
Proof.
  intros Href Hthrow r. subst r.
  pose proof (exportBody_throwsUnsaved env fuel
                (start (setIsExporting true p)) eq_refl Hthrow) as Hsave.
  pose proof (exportBody_keepsPage env fuel
                (start (setIsExporting true p))) as Hpage.
  pose proof (exportBody_throwEndsIt env fuel
                (start (setIsExporting true p)) Hthrow) as Hlast.
  assert (E : handleExportPDF env fuel (start p)
              = try_catch_finally (exportBody env fuel) exportHandler
                  (update (setIsExporting false))
                  (start (setIsExporting true p))).
  { unfold handleExportPDF. rewrite Href. reflexivity. }
  rewrite E. unfold try_catch_finally.
  destruct (exportBody env fuel (start (setIsExporting true p)))
    as [[a| |] s1]; cbn [fst] in Hthrow; try discriminate Hthrow.
  cbn [snd] in Hsave, Hpage, Hlast. unfold noSave in Hsave.
  unfold exportHandler, bind, emit, update. cbn [fst snd page calls log].
  rewrite Hpage. cbn [start page].
  split; [reflexivity|]. split; [exact Hlast|]. split.
  - rewrite !existsb_snoc, Hsave. reflexivity.
  - split; [exists (log s1); rewrite <- app_assoc; reflexivity|].
    repeat split.
Qed.

Lemma export_failure_is_contained_witness :
  (existsb isSave (log (snd (handleExportPDF captureThrows 2 (start initialPage))))
   = false
   /\ page (snd (handleExportPDF captureThrows 2 (start initialPage)))
      = setIsExporting false initialPage)
  /\ (existsb isSave
        (log (snd (handleExportPDF compositionThrows 2 (start initialPage))))
      = false
      /\ page (snd (handleExportPDF compositionThrows 2 (start initialPage)))
         = setIsExporting false initialPage).
Proof.
  split.
  - destruct (export_failure_is_contained captureThrows 2 initialPage
                eq_refl eq_refl) as (_ & _ & Hs & _ & Hp & _).
    split; [exact Hs | exact Hp].
  - destruct (export_failure_is_contained compositionThrows 2 initialPage
                eq_refl eq_refl) as (_ & _ & Hs & _ & Hp & _).
    split; [exact Hs | exact Hp].
Defined.

End ExportFacts.

(** ** More on [pollForResults] *)

Module ApiExtra.
Import Js Api ResultsPage ApiTrace.

Lemma terminalOutcome_none (f : Fetched) :
  terminalOutcome f = None <-> keepsWaiting f = true.
Proof.
  unfold terminalOutcome, keepsWaiting.
  destruct (getResults f) as [r|e].
  - destruct (status r); split; intros H; try reflexivity; discriminate H.
  - destruct (rethrows e); split; intros H; try reflexivity; discriminate H.
Qed.

(** One round that does not end the poll, followed by the rest. *)
Lemma pollLoop_continue (server : nat -> Fetched) (ms : Z) (n a : nat) :
  terminalOutcome (server a) = None ->
  exists mid,
    pollLoop server ms (S n) a
    = (Fetch a :: mid ++ Sleep ms :: fst (pollLoop server ms n (S a)),
       snd (pollLoop server ms n (S a)))
    /\ (mid = [] \/ mid = [OnProgress (a + 1)]).
Proof.
  intros H. unfold terminalOutcome in H. cbn [pollLoop].
  destruct (pollLoop server ms n (S a)) as [rest out].
  destruct (getResults (server a)) as [r|e].
  - destruct (status r); try discriminate H;
      (exists [OnProgress (a + 1)]; split; [reflexivity | right; reflexivity]).
  - destruct (rethrows e); [discriminate H|].
    exists []. split; [reflexivity | left; reflexivity].
Qed.

(** One round that ends it. *)
Lemma pollLoop_stop (server : nat -> Fetched) (ms : Z) (n a : nat)
    (out : Settled AnalysisResult) :
  terminalOutcome (server a) = Some out ->
  pollLoop server ms (S n) a = ([Fetch a], out).
Proof.
  intros H. unfold terminalOutcome in H. cbn [pollLoop].
  destruct (pollLoop server ms n (S a)) as [rest o].
  destruct (getResults (server a)) as [r|e].
  - destruct (status r); try discriminate H; inversion H; reflexivity.
  - destruct (rethrows e); [|discriminate H]. inversion H. reflexivity.
Qed.

Lemma round_counts (a : nat) (mid rest : list PollEvent) (ms : Z) :
  mid = [] \/ mid = [OnProgress (a + 1)] ->
  fetchCount (Fetch a :: mid ++ Sleep ms :: rest) = S (fetchCount rest)
  /\ sleepCount (Fetch a :: mid ++ Sleep ms :: rest) = S (sleepCount rest)
  /\ fetchAttempts (Fetch a :: mid ++ Sleep ms :: rest) = a :: fetchAttempts rest
  /\ sleepDelays (Fetch a :: mid ++ Sleep ms :: rest) = ms :: sleepDelays rest.
Proof.
  intros [H | H]; subst mid; repeat split.
Qed.



Lemma pollLoop_exhausted (server : nat -> Fetched) (ms : Z) (n : nat) :
  forall a,
    (forall j, a <= j < a + n -> terminalOutcome (server j) = None) ->
    snd (pollLoop server ms n a) = Throws timedOut
    /\ fetchCount (fst (pollLoop server ms n a)) = n
    /\ sleepCount (fst (pollLoop server ms n a)) = n.
Proof.
  induction n as [|n IH]; intros a H.
  - repeat split.
  - destruct (pollLoop_continue server ms n a) as (mid & E & Hmid);
      [apply H; lia|].
    rewrite E. cbn [fst snd].
    destruct (round_counts a mid (fst (pollLoop server ms n (S a))) ms Hmid)
      as (Hf & Hs & _).
    rewrite Hf, Hs.
    destruct (IH (S a)) as (I1 & I2 & I3); [intros j Hj; apply H; lia|].
    repeat split; congruence.
Qed.

(** X2: when none of the [maxAttempts] answers ends the poll (the job is
    pending or processing, the network fails, the body of a 2xx response is
    no JSON, the body of a non-2xx response is the JSON null, or the error
    has status 202), [pollForResults] rejects with the 408
    time-out error after exactly [maxAttempts] fetches and as many pauses;
    with a budget of 0 it rejects at once without fetching. *)
Theorem pollForResults_exhausts_budget (server : nat -> Fetched)
    (maxAttempts : nat) (intervalMs : Z) :
  (forall j, j < maxAttempts -> terminalOutcome (server j) = None) ->
  snd (pollForResults server maxAttempts intervalMs)
  = Throws (ApiError (lit "Analysis timed out. Please try again.") 408)
  /\ fetchCount (fst (pollForResults server maxAttempts intervalMs)) = maxAttempts
  /\ sleepCount (fst (pollForResults server maxAttempts intervalMs)) = maxAttempts.
Proof.
  intros H. apply pollLoop_exhausted. intros j Hj. apply H. lia.
Qed.

Lemma pollForResults_exhausts_budget_witness :
  snd (pollForResults offline 3 2000)
  = Throws (ApiError (lit "Analysis timed out. Please try again.") 408)
  /\ fetchCount (fst (pollForResults offline 3 2000)) = 3.
Proof.
  destruct (pollForResults_exhausts_budget offline 3 2000) as (H1 & H2 & _).
  - intros j _. reflexivity.
  - split; [exact H1 | exact H2].
Defined.

(** A non-2xx response other than 202 ends the poll with the [ApiError]
    that [getResults] builds from its body, whatever that body is, as long
    as it is not the JSON null. *)
Lemma error_response_is_terminal (st : Z) (body : option (option jsstring)) :
  st <> 202%Z ->
  exists m, terminalOutcome (NotOk st body) = Some (Throws (ApiError m st))
            /\ getResults (NotOk st body) = Throws (ApiError m st).
Proof.
  intros H. eexists. split; [|reflexivity].
  unfold terminalOutcome. simpl. apply Z.eqb_neq in H. rewrite H. reflexivity.
Qed.

(** With the body null the read of the detail throws, and the loop
    swallows what is not an [ApiError]: the poll goes on, whatever the
    status. *)
Lemma null_body_is_retried (st : Z) (m : jsstring) :
  getResults (NotOkNull st m) = Throws (OtherError m)
  /\ terminalOutcome (NotOkNull st m) = None.
Proof. split; reflexivity. Qed.

Example pollForResults_after_null_body :
  pollForResults nullThenDone 60 2000
  = ([Fetch 0; Sleep 2000; Fetch 1], Returns (bareResult completed)).
Proof. reflexivity. Qed.




Lemma getResults_returns (f : Fetched) (r : AnalysisResult) :
  getResults f = Returns r -> f = Ok2xx r.
Proof.
  destruct f; simpl; intros H; try discriminate H. inversion H. reflexivity.
Qed.

Lemma getResults_rethrown (f : Fetched) (e : Thrown) :
  getResults f = Throws e -> rethrows e = true ->
  exists st body, f = NotOk st body /\ st <> 202%Z.
Proof.
  destruct f as [m|d|m|st body|st m]; simpl; intros H R; inversion H; subst;
    try discriminate R.
  exists st, body. split; [reflexivity|].
  simpl in R. apply negb_true_iff, Z.eqb_neq in R. exact R.
Qed.

Lemma terminalOutcome_origin (f : Fetched) (out : Settled AnalysisResult) :
  terminalOutcome f = Some out ->
  match out with
  | Returns r => status r = completed /\ f = Ok2xx r
  | Throws e =>
      (e = analysisFailed /\ exists r, f = Ok2xx r /\ status r = failed)
      \/ exists st body,
           f = NotOk st body /\ st <> 202%Z /\ getResults f = Throws e
  end.
Proof.
  unfold terminalOutcome. destruct (getResults f) as [r|e] eqn:G.
  - apply getResults_returns in G.
    destruct (status r) eqn:S; intros H; inversion H; subst.
    + split; [exact S | reflexivity].
    + left. split; [reflexivity|]. exists r. split; [reflexivity | exact S].
  - destruct (rethrows e) eqn:R; intros H; inversion H; subst.
    right. destruct (getResults_rethrown f e G R) as (st & body & E & Hst).
    exists st, body. repeat split; assumption.
Qed.

Lemma pollLoop_outcome (server : nat -> Fetched) (ms : Z) (n : nat) :
  forall a,
    snd (pollLoop server ms n a) = Throws timedOut
    \/ exists k, a <= k < a + n
                 /\ terminalOutcome (server k) = Some (snd (pollLoop server ms n a)).
Proof.
  induction n as [|n IH]; intros a.
  - left. reflexivity.
  - destruct (terminalOutcome (server a)) as [out|] eqn:T.
    + right. exists a. rewrite (pollLoop_stop server ms n a _ T).
      split; [lia | exact T].
    + destruct (pollLoop_continue server ms n a T) as (mid & E & _).
      rewrite E. cbn [snd].
      destruct (IH (S a)) as [H | (k & Hk & H)].
      * left. exact H.
      * right. exists k. split; [lia | exact H].
Qed.

(** X4: where the result of [pollForResults] comes from.  A result it
    resolves with is a completed one that some attempt within the budget
    fetched.  An error it rejects with is the time-out error, the
    analysis-failed error for a fetched payload with status failed, or the
    error of a non-2xx response whose status is not 202; a network failure
    or an unparsable body is never what it rejects with. *)
Theorem pollForResults_outcome_origin (server : nat -> Fetched)
    (maxAttempts : nat) (intervalMs : Z) :
  match snd (pollForResults server maxAttempts intervalMs) with
  | Returns r =>
      status r = completed
      /\ exists k, k < maxAttempts /\ server k = Ok2xx r
  | Throws e =>
      e = timedOut
      \/ (e = analysisFailed
          /\ exists k r, k < maxAttempts /\ server k = Ok2xx r
                         /\ status r = failed)
      \/ exists k st body,
           k < maxAttempts /\ server k = NotOk st body /\ st <> 202%Z
           /\ getResults (server k) = Throws e
  end.
Proof.
  unfold pollForResults.
  destruct (pollLoop_outcome server intervalMs maxAttempts 0) as [H | (k & Hk & H)].
  - rewrite H. left. reflexivity.
  - apply terminalOutcome_origin in H.
    destruct (snd (pollLoop server intervalMs maxAttempts 0)) as [r|e].
    + destruct H as [Hs Hf]. split; [exact Hs|]. exists k. split; [lia | exact Hf].
    + destruct H as [(He & r & Hf & Hs) | (st & body & Hf & Hst & Hg)].
      * right. left. split; [exact He|]. exists k, r. repeat split; try assumption; lia.
      * right. right. exists k, st, body. repeat split; try assumption; lia.
Qed.

End ApiExtra.

(** ** More on the polling effect of the results page *)

Module PollExtra.
Import Js Api ResultsPage ApiTrace PagePoll PollFacts.

Lemma fetchResults_pollCount (o : Settled AnalysisResult) (p : Page) :
  pollCount (fst (fetchResults o p)) = pollCount p.
Proof.
  unfold fetchResults. destruct o as [d|e].
  - destruct (status d); reflexivity.
  - destruct (instanceofError e && includes (errMessage e) (lit "still processing"));
      reflexivity.
Qed.

Lemma booked_effect (p0 : Page) : booked p0 (effect p0).
Proof.
  unfold booked, effect, poll. simpl.
  split; [lia|]. split; [intros _; split; [reflexivity | lia]|].
  split; [intros H; congruence|]. split; lia.
Qed.

Ltac book :=
  repeat (first [split | intro]);
  try discriminate; try congruence; try lia.

Lemma booked_step (p0 : Page) (c : Config) (i : PollInput) :
  booked p0 c -> booked p0 (pollStep c i).
Proof.
  destruct c as [p [c t fl n]]. unfold booked.
  cbn [fst snd cancelled timeout inFlight fetches].
  intros (Hle & Hfl & Har & Hlo & Hhi).
  destruct i as [f| |];
    cbn [pollStep fst snd cancelled timeout inFlight fetches].
  - destruct fl.
    + destruct (Hfl eq_refl) as [Ht Hc]. subst t.
      unfold poll_resume.
      pose proof (fetchResults_pollCount (getResults f) p) as Hp.
      destruct (fetchResults (getResults f) p) as [p' done]. cbn [fst] in Hp.
      cbn [cancelled timeout inFlight fetches].
      destruct done, c;
        cbn [negb andb fst snd setPollCount pollCount cancelled timeout
             inFlight fetches]; book.
    + cbn [fst snd cancelled timeout inFlight fetches]. book.
      * destruct (Har H) as (_ & ? & _). assumption.
      * destruct (Har H) as (_ & _ & ?). assumption.
  - destruct t as [ms|].
    + destruct Har as (F & C & Hc); [discriminate|]. subst fl c.
      unfold poll.
      cbn [fst snd cancelled timeout inFlight fetches]. book.
    + cbn [fst snd cancelled timeout inFlight fetches]. book.
      * destruct (Hfl H) as [_ ?]. assumption.
  - unfold cleanup. cbn [fst snd cancelled timeout inFlight fetches]. book.
    destruct (Hfl H) as [_ ?]. assumption.
Qed.

Lemma booked_run (p0 : Page) (inputs : list PollInput) :
  forall c, booked p0 c -> booked p0 (pollRun inputs c).
Proof.
  induction inputs as [|i inputs IH]; intros c H; [exact H|].
  apply (IH (pollStep c i)), booked_step, H.
Qed.

(** X5: in every run of the polling effect, started on any page, a fetch
    is never in flight while the timer is armed (one attempt is fully
    awaited before the next is scheduled), a cancelled effect has no armed
    timer, and the poll counter has grown by the number of fetches issued or
    by one less: it counts the fetches that came back without ending the
    poll. *)
Theorem poll_effect_bookkeeping (p0 : Page) (inputs : list PollInput) :
  let c := pollRun inputs (effect p0) in
  (if inFlight (snd c) then timeout (snd c) = None else True)
  /\ (if cancelled (snd c) then timeout (snd c) = None else True)
  /\ 1 <= fetches (snd c)
  /\ pollCount (fst c) <= pollCount p0 + fetches (snd c)
  /\ pollCount p0 + fetches (snd c) <= S (pollCount (fst c)).
Proof.
  intros c.
  assert (Hfetch : forall inputs' c', 1 <= fetches (snd c') ->
            1 <= fetches (snd (pollRun inputs' c'))).
  { induction inputs' as [|i l IH]; intros c' H; [exact H|].
    apply (IH (pollStep c' i)). destruct c' as [p e].
    destruct i as [f| |]; cbn [pollStep fst snd] in *.
    - destruct (inFlight e); [|exact H]. unfold poll_resume.
      destruct (fetchResults (getResults f) p) as [p' done].
      destruct (negb done && negb (cancelled e)); exact H.
    - destruct (timeout e); [|exact H]. unfold poll. cbn [cancelled].
      destruct (cancelled e); cbn [snd fetches]; lia.
    - exact H. }
  destruct (booked_run p0 inputs (effect p0) (booked_effect p0))
    as (Hle & Hfl & Har & Hlo & Hhi).
  fold c in Hle, Hfl, Har, Hlo, Hhi.
  split; [|split; [|split; [|split]]].
  - destruct (inFlight (snd c)); [apply Hfl; reflexivity | exact I].
  - destruct (cancelled (snd c)) eqn:C; [|exact I].
    destruct (timeout (snd c)) eqn:T; [|reflexivity].
    destruct Har as (_ & C' & _); congruence.
  - apply Hfetch. unfold effect, poll. simpl. lia.
  - exact Hlo.
  - exact Hhi.
Qed.

Lemma idle_step (c : Config) (i : PollInput) :
  idle c ->
  idle (pollStep c i)
  /\ fst (pollStep c i) = fst c
  /\ fetches (snd (pollStep c i)) = fetches (snd c).
Proof.
  destruct c as [p e]. unfold idle. cbn [fst snd]. intros [F T].
  destruct i as [f| |]; cbn [pollStep fst snd].
  - rewrite F. cbn [fst snd]. auto.
  - rewrite T. cbn [fst snd]. auto.
  - unfold cleanup. cbn [fst snd inFlight timeout fetches]. auto.
Qed.

Lemma idle_run (inputs : list PollInput) :
  forall c, idle c ->
    fst (pollRun inputs c) = fst c
    /\ fetches (snd (pollRun inputs c)) = fetches (snd c).
Proof.
  induction inputs as [|i inputs IH]; intros c H; [split; reflexivity|].
  destruct (idle_step c i H) as (Hi & Hp & Hf).
  destruct (IH (pollStep c i) Hi) as [Hp' Hf'].
  change (pollRun (i :: inputs) c) with (pollRun inputs (pollStep c i)).
  split; congruence.
Qed.

Lemma fetchResults_done (o : Settled AnalysisResult) (p : Page) :
  snd (fetchResults o p) = true ->
  state (fst (fetchResults o p)) = Ready
  \/ state (fst (fetchResults o p)) = Error.
Proof.
  unfold fetchResults. destruct o as [d|e].
  - destruct (status d); simpl; intros H; try discriminate H. left. reflexivity.
  - destruct (instanceofError e && includes (errMessage e) (lit "still processing"));
      simpl; intros H; try discriminate H. right. reflexivity.
Qed.

(** X6: once a fetch of the effect comes back with a completed result or
    with an error that is not "still processing", the page is in the ready
    or the error state, and from then on the effect never fetches again and
    never changes the page, whatever happens later (stray timer events,
    late responses, the cleanup). *)
Theorem poll_effect_stops_when_done (p0 : Page) (inputs more : list PollInput)
    (f : Fetched) :
  let c := pollRun inputs (effect p0) in
  let c' := pollStep c (FetchSettles f) in
  inFlight (snd c) = true ->
  snd (fetchResults (getResults f) (fst c)) = true ->
  (state (fst c') = Ready \/ state (fst c') = Error)
  /\ fst (pollRun more c') = fst c'
  /\ fetches (snd (pollRun more c')) = fetches (snd c).
Proof.
  intros c c' F D.
  destruct (booked_run p0 inputs (effect p0) (booked_effect p0))
    as (_ & Hfl & _).
  fold c in Hfl. destruct (Hfl F) as [T _].
  assert (E : c' = (fst (fetchResults (getResults f) (fst c)),
                    {| cancelled := cancelled (snd c); timeout := None;
                       inFlight := false; fetches := fetches (snd c) |})).
  { subst c'. destruct c as [p e]. cbn [fst snd] in *.
    cbn [pollStep snd]. rewrite F. unfold poll_resume.
    destruct (fetchResults (getResults f) p) as [p' done]. cbn [fst snd] in *.
    subst done. cbn [negb andb]. rewrite T. reflexivity. }
  assert (I : idle c') by (rewrite E; split; reflexivity).
  destruct (idle_run more c' I) as [Hp Hf].
  split; [|split].
  - rewrite E. cbn [fst]. apply fetchResults_done, D.
  - exact Hp.
  - rewrite Hf, E. reflexivity.
Qed.

Lemma poll_effect_stops_when_done_witness :
  fst (pollRun [TimerFires; FetchSettles (Ok2xx (bareResult processing))]
         (pollStep (effect initialPage) (FetchSettles (Ok2xx (bareResult completed)))))
  = fst (pollStep (effect initialPage) (FetchSettles (Ok2xx (bareResult completed))))
  /\ fetches (snd (pollRun [TimerFires; FetchSettles (Ok2xx (bareResult processing))]
         (pollStep (effect initialPage) (FetchSettles (Ok2xx (bareResult completed))))))
     = 1.
Proof.
  destruct (poll_effect_stops_when_done initialPage []
              [TimerFires; FetchSettles (Ok2xx (bareResult processing))]
              (Ok2xx (bareResult completed)) eq_refl eq_refl)
    as (_ & Hp & Hf).
  split; [exact Hp | exact Hf].
Defined.

(** X7: after the cleanup of the effect has run, no further fetch is
    issued and the poll counter is not touched again, whatever happens
    later; this holds from any configuration, also with a fetch in flight
    or a timer armed at the time. *)
Theorem cleanup_ends_fetching (c : Config) (inputs : list PollInput) :
  fetches (snd (pollRun inputs (pollStep c CleanupRuns))) = fetches (snd c)
  /\ pollCount (fst (pollRun inputs (pollStep c CleanupRuns)))
     = pollCount (fst c).
Proof.
  destruct (cancelled_run inputs (pollStep c CleanupRuns)) as [F P].
  - destruct c as [p e]. reflexivity.
  - destruct c as [p e]. split; [exact F | exact P].
Qed.

(** X8: the progress bar of the loading view starts at 10 percent, grows
    by 6 with every counted poll, never shrinks, and is capped at 95: it
    reaches the cap from the fifteenth poll on and never shows 100. *)
Theorem progressWidth_bounds (n m : nat) :
  10 <= progressWidth n <= 95
  /\ progressWidth 0 = 10
  /\ (if n <? 15 then progressWidth n = 10 + 6 * n else progressWidth n = 95)
  /\ (if n <=? m then progressWidth n <= progressWidth m else True).
Proof.
  unfold progressWidth. repeat split; try lia.
  - destruct (n <? 15) eqn:E.
    + apply Nat.ltb_lt in E. lia.
    + apply Nat.ltb_ge in E. lia.
  - destruct (n <=? m) eqn:E; [|exact I].
    apply Nat.leb_le in E. lia.
Qed.

Example page_stops_on_null_body :
  fetchResults (getResults (NotOkNull 500 nullDetail)) initialPage
  = (setState Error (setError (Some nullDetail) initialPage), true).
Proof. reflexivity. Qed.

Lemma includes_nonempty (d : jsstring) :
  includes d phrase = true -> truthy_string d = true.
Proof. destruct d; [discriminate | reflexivity]. Qed.

(** X9: the two pollers disagree on what a failure means.  A network
    failure whose message does not say "still processing" ends the page's
    polling in the error state with that message, while [pollForResults]
    swallows it and tries again; a non-2xx response other than 202 whose
    detail says "still processing" keeps the page polling, while
    [pollForResults] rejects with it at once. *)
Theorem pollers_disagree_on_failures (m d : jsstring) (st : Z) (p : Page) :
  includes m phrase = false ->
  includes d phrase = true ->
  st <> 202%Z ->
  fetchResults (getResults (FetchRejects m)) p
  = (setState Error (setError (Some m) p), true)
  /\ terminalOutcome (FetchRejects m) = None
  /\ fetchResults (getResults (NotOk st (Some (Some d)))) p = (p, false)
  /\ terminalOutcome (NotOk st (Some (Some d))) = Some (Throws (ApiError d st)).
Proof.
  intros Hm Hd Hst. pose proof (includes_nonempty d Hd) as Ht.
  unfold phrase in *.
  split; [|split; [reflexivity|split]].
  - simpl. rewrite Hm. reflexivity.
  - simpl. rewrite Ht. simpl. rewrite Hd. reflexivity.
  - unfold terminalOutcome. simpl. rewrite Ht.
    apply Z.eqb_neq in Hst. rewrite Hst. reflexivity.
Qed.

Lemma pollers_disagree_on_failures_witness :
  fetchResults (getResults (FetchRejects (lit "Failed to fetch"))) initialPage
  = (setState Error (setError (Some (lit "Failed to fetch")) initialPage), true)
  /\ terminalOutcome (FetchRejects (lit "Failed to fetch")) = None
  /\ fetchResults
       (getResults (NotOk 404 (Some (Some (lit "Job is still processing")))))
       initialPage
     = (initialPage, false)
  /\ terminalOutcome (NotOk 404 (Some (Some (lit "Job is still processing"))))
     = Some (Throws (ApiError (lit "Job is still processing") 404)).
Proof.
  apply (pollers_disagree_on_failures (lit "Failed to fetch")
           (lit "Job is still processing") 404 initialPage).
  - reflexivity.
  - reflexivity.
  - discriminate.
Defined.

End PollExtra.

(** ** More on the chat sidebar *)

Module ChatExtra.
Import Js ChatSidebar JsFacts ChatFacts ChatLog.

Lemma questions_app (a b : list Message) :
  questions (a ++ b) = questions a ++ questions b.
Proof.
  induction a as [|[r c] a IH]; simpl; [reflexivity|].
  destruct r; simpl; rewrite IH; reflexivity.
Qed.

Lemma sendMessage_logged (text : jsstring) (s : Session) :
  logged s -> logged (sendMessage text s).
Proof.
  intros [Hq Hl]. rewrite sendMessage_cases.
  destruct (blank text || loading s) eqn:G; [split; assumption|].
  apply orb_false_iff in G. destruct G as [_ G]. rewrite G in Hl.
  unfold logged. cbn [messages requests loading].
  rewrite questions_app, !length_app, Hq. simpl. split; [reflexivity | lia].
Qed.

Lemma step_logged (s : Session) (e : Event) : logged s -> logged (step s e).
Proof.
  intros H. destruct e as [q o| v | | o]; simpl.
  - unfold initialQuestionEffect. destruct q as [q|]; [|exact H].
    destruct (truthy_string q && o && negb (hasHandledInitial s)); [|exact H].
    apply sendMessage_logged. exact H.
  - exact H.
  - apply sendMessage_logged. exact H.
  - destruct (loading s) eqn:L; [|exact H].
    destruct H as [Hq Hl]. rewrite L in Hl.
    unfold logged. cbn [sendMessage_resume messages requests loading].
    rewrite questions_app, length_app, Hq.
    destruct o; simpl; rewrite app_nil_r; split; try reflexivity; lia.
Qed.

(** X10: in every state a mounted sidebar can reach, the questions shown
    as user messages are exactly the questions sent to the server, in the
    same order, and each request has exactly one message after its
    question once it has settled: the transcript holds the introduction,
    two messages per settled request and one for the request in flight. *)
Theorem transcript_matches_requests (evs : list Event) :
  let s := run evs mount in
  questions (messages s) = requests s
  /\ length (messages s) + (if loading s then 1 else 0)
     = 1 + 2 * length (requests s).
Proof.
  apply (run_invariant logged step_logged). split; reflexivity.
Qed.

Lemma sendMessage_keeps_ref (text : jsstring) (s : Session) :
  hasHandledInitial (sendMessage text s) = hasHandledInitial s.
Proof.
  rewrite sendMessage_cases. destruct (blank text || loading s); reflexivity.
Qed.

Lemma step_keeps_ref (s : Session) (e : Event) :
  hasHandledInitial s = true -> hasHandledInitial (step s e) = true.
Proof.
  intros H. destruct e as [q o| v | | o]; simpl.
  - unfold initialQuestionEffect. destruct q as [q|]; [|exact H].
    destruct (truthy_string q && o && negb (hasHandledInitial s)); [|exact H].
    rewrite sendMessage_keeps_ref. reflexivity.
  - exact H.
  - unfold handleSend. rewrite sendMessage_keeps_ref. exact H.
  - destruct (loading s); exact H.
Qed.

Lemma effect_spent (s : Session) (q : option jsstring) (o : bool) :
  hasHandledInitial s = true -> step s (EffectRuns q o) = s.
Proof.
  intros H. simpl. unfold initialQuestionEffect. destruct q as [q|]; [|reflexivity].
  rewrite H, andb_false_r. reflexivity.
Qed.

Lemma reachable_oneShot (evs : list Event) : oneShot (run evs mount).
Proof.
  apply (run_invariant oneShot oneShot_step). unfold oneShot. simpl. lia.
Qed.

(** X11: only the first suggested question of a session is ever handed
    to [sendMessage].  Once the effect has handed one over, every later run
    of the effect, with any question and the sidebar open or closed, leaves
    the session exactly as it is, however many other events lie in
    between. *)
Theorem later_suggestions_are_ignored (evs more : list Event)
    (q : option jsstring) (o : bool) :
  autoSent (run evs mount) <> [] ->
  step (run more (run evs mount)) (EffectRuns q o) = run more (run evs mount).
Proof.
  intros H. apply effect_spent.
  apply (run_invariant (fun s => hasHandledInitial s = true) step_keeps_ref).
  pose proof (reachable_oneShot evs) as O. unfold oneShot in O.
  destruct (hasHandledInitial (run evs mount)); [reflexivity|].
  destruct (autoSent (run evs mount)); [congruence | simpl in O; lia].
Qed.

Lemma later_suggestions_are_ignored_witness :
  step (run [Settles (Replied (lit "because"))]
          (run [EffectRuns (Some (lit "why?")) true] mount))
    (EffectRuns (Some (lit "what next?")) true)
  = run [Settles (Replied (lit "because"))]
      (run [EffectRuns (Some (lit "why?")) true] mount).
Proof.
  apply (later_suggestions_are_ignored [EffectRuns (Some (lit "why?")) true]
           [Settles (Replied (lit "because"))] (Some (lit "what next?")) true).
  discriminate.
Defined.

(** X12: a suggested question that arrives while a request is in flight
    is lost: the effect marks the initial question as handled, the guard of
    [sendMessage] refuses it, so transcript and request log stay as they
    are, and no later run of the effect sends it or any other question. *)
Theorem suggestion_while_busy_is_lost (s : Session) (q : jsstring)
    (more : list Event) (q' : option jsstring) (o' : bool) :
  loading s = true ->
  hasHandledInitial s = false ->
  truthy_string q = true ->
  let s' := step s (EffectRuns (Some q) true) in
  messages s' = messages s
  /\ requests s' = requests s
  /\ hasHandledInitial s' = true
  /\ step (run more s') (EffectRuns q' o') = run more s'.
Proof.
  intros L H T s'.
  assert (E : s' = {| messages := messages s; input := input s;
                      loading := loading s; hasHandledInitial := true;
                      requests := requests s;
                      autoSent := autoSent s ++ [q] |}).
  { subst s'. simpl. unfold initialQuestionEffect. rewrite T, H. simpl.
    rewrite sendMessage_cases. cbn [loading]. rewrite L, orb_true_r.
    reflexivity. }
  rewrite E. cbn [messages requests hasHandledInitial].
  split; [reflexivity|]. split; [reflexivity|]. split; [reflexivity|].
  apply effect_spent.
  apply (run_invariant (fun s => hasHandledInitial s = true) step_keeps_ref).
  reflexivity.
Qed.

Lemma suggestion_while_busy_is_lost_witness :
  requests (step (sendMessage (lit "hello") mount)
              (EffectRuns (Some (lit "why?")) true))
  = [lit "hello"]
  /\ hasHandledInitial (step (sendMessage (lit "hello") mount)
                          (EffectRuns (Some (lit "why?")) true)) = true.
Proof.
  destruct (suggestion_while_busy_is_lost (sendMessage (lit "hello") mount)
              (lit "why?") [] None false eq_refl eq_refl eq_refl)
    as (_ & Hr & Hh & _).
  split; [exact Hr | exact Hh].
Defined.

Lemma pressOrSettle_step (s : Session) (e : Event) :
  pressOrSettle e = true -> input s = [] ->
  input (step s e) = [] /\ requests (step s e) = requests s.
Proof.
  intros He Hi. destruct e as [q o| v | | o]; try discriminate He; simpl.
  - unfold handleSend. rewrite Hi, sendMessage_cases. simpl.
    split; [exact Hi | reflexivity].
  - destruct (loading s); simpl; split; auto.
Qed.

Lemma pressOrSettle_run (evs : list Event) :
  forall s, forallb pressOrSettle evs = true -> input s = [] ->
    requests (run evs s) = requests s.
Proof.
  induction evs as [|e evs IH]; intros s He Hi; [reflexivity|].
  simpl in He. apply andb_true_iff in He. destruct He as [He Hes].
  destruct (pressOrSettle_step s e He Hi) as [Hi' Hr'].
  change (run (e :: evs) s) with (run evs (step s e)).
  rewrite (IH (step s e) Hes Hi'). exact Hr'.
Qed.

(** X13: pressing Send sends the typed text once.  After a press that
    was accepted, the input is empty, so any further presses, before or
    after the answer arrives, send nothing until the user types again or a
    suggested question comes in: exactly one request was added. *)
Theorem one_press_one_request (s : Session) (evs : list Event) :
  blank (input s) = false ->
  loading s = false ->
  forallb pressOrSettle evs = true ->
  requests (run evs (handleSend s)) = requests s ++ [input s]
  /\ input (handleSend s) = [].
Proof.
  intros B L He. unfold handleSend.
  assert (E : sendMessage (input s) s
              = {| messages := messages s ++ [{| role := user; content := input s |}];
                   input := []; loading := true;
                   hasHandledInitial := hasHandledInitial s;
                   requests := requests s ++ [input s];
                   autoSent := autoSent s |}).
  { rewrite sendMessage_cases, B, L. reflexivity. }
  rewrite E. split; [|reflexivity].
  rewrite pressOrSettle_run; [reflexivity | exact He | reflexivity].
Qed.

Lemma one_press_one_request_witness :
  requests (run [PressesSend; Settles Rejected; PressesSend; PressesSend]
              (handleSend (setInput (lit "why?") mount)))
  = [lit "why?"].
Proof.
  destruct (one_press_one_request (setInput (lit "why?") mount)
              [PressesSend; Settles Rejected; PressesSend; PressesSend]
              eq_refl eq_refl eq_refl) as [H _].
  exact H.
Defined.

End ChatExtra.

(** ** More on the PDF export *)

Module ExportExtra.
Import Js Api ResultsPage ExportPDF ExportFacts ExportLayout.
Local Open Scope Q_scope.

Lemma reach_nonneg (n : nat) (ph : Q) : 0 < ph -> 0 <= reach n ph.
Proof.
  intros H. induction n as [|n IH]; cbn [reach]; lra.
Qed.

Lemma slices_count (h ph : Q) (ys : list Q) :
  0 < ph ->
  forall hl, slices h ph hl ys ->
    hl <= reach (length ys) ph
    /\ forall m, hl <= reach m ph -> (length ys <= m)%nat.
Proof.
  intros Hp. induction ys as [|y ys IH]; intros hl Hs.
  - simpl in Hs. split; [exact Hs | intros; simpl; lia].
  - destruct Hs as (Hpos & _ & Hs). destruct (IH _ Hs) as [Hle Hmin].
    split.
    + cbn [length reach]. lra.
    + intros m Hm. destruct m as [|m]; [simpl in Hm; lra|].
      cbn [reach] in Hm. cbn [length].
      apply le_n_S, Hmin. lra.
Qed.

(** X14: the number of pages of a successful export of a capture of
    positive width.  Beyond the first page the loop adds the least number [n] of pages for which [n] page
    heights make up for the rendered height less the usable height of page
    one; the document has [n + 1] pages. *)
Theorem export_page_count (env : Env) (fuel : nat) (p : Page) :
  refCurrent env = true ->
  throwsAt env = None ->
  0 < imgWidth env ->
  0 < pdfHeight env ->
  enoughFuel env fuel ->
  exists n,
    pageCount (log (snd (handleExportPDF env fuel (start p)))) = S n
    /\ imgRenderHeight env - usableHeight env <= reach n (pdfHeight env)
    /\ forall m, imgRenderHeight env - usableHeight env <= reach m (pdfHeight env)
                 -> (n <= m)%nat.
Proof.
  intros Href Hq _ Hp Hfuel.
  destruct (handleExportPDF_quiet env Hq fuel p Href Hfuel) as (ys & Hs & Hrun).
  rewrite Hrun. cbn [snd log]. rewrite pageCount_document.
  exists (length ys). split; [reflexivity|].
  exact (slices_count _ _ ys Hp _ Hs).
Qed.

Lemma export_page_count_witness :
  exists n,
    pageCount (log (snd (handleExportPDF tallImage 2 (start initialPage)))) = S n
    /\ imgRenderHeight tallImage - usableHeight tallImage
       <= reach n (pdfHeight tallImage).
Proof.
  assert (Hp : 0 < pdfHeight tallImage) by reflexivity.
  assert (Hf : enoughFuel tallImage 2) by (unfold enoughFuel, Qle; simpl; lia).
  destruct (export_page_count tallImage 2 initialPage eq_refl eq_refl
              eq_refl Hp Hf)
    as (n & H1 & H2 & _).
  exists n. split; [exact H1 | exact H2].
Defined.

Lemma slices_cover (h ph : Q) (ys : list Q) :
  forall hl row,
    slices h ph hl ys ->
    h - margin - hl < row -> row <= h - margin ->
    exists y, In y ys /\ 0 <= y + row /\ y + row <= ph.
Proof.
  induction ys as [|y ys IH]; intros hl row Hs Hlo Hhi.
  - simpl in Hs. lra.
  - destruct Hs as (Hpos & Hy & Hs).
    destruct (Qlt_le_dec (h - margin - (hl - ph)) row) as [Hnext | Hhere].
    + destruct (IH _ row Hs Hnext Hhi) as (y' & Hin & Hy').
      exists y'. split; [right; exact Hin | exact Hy'].
    + exists y. split; [left; reflexivity|]. subst y. lra.
Qed.

(** X15: a successful export shows the image from its top down to one
    margin above its bottom.  Every row of the rendered image between 0 and
    the rendered height less the margin lies inside the page area of at
    least one page of the document. *)
Theorem export_covers_image (env : Env) (fuel : nat) (p : Page) (row : Q) :
  refCurrent env = true ->
  throwsAt env = None ->
  margin * 2 < pdfHeight env ->
  enoughFuel env fuel ->
  0 <= row ->
  row <= imgRenderHeight env - margin ->
  shownOn env (offsets (log (snd (handleExportPDF env fuel (start p))))) row.
Proof.
  intros Href Hq Hm Hfuel H0 Hrow.
  destruct (handleExportPDF_quiet env Hq fuel p Href Hfuel) as (ys & Hs & Hrun).
  rewrite Hrun. cbn [snd log]. rewrite offsets_document.
  unfold shownOn, onPage.
  destruct (Qlt_le_dec (pdfHeight env - margin) row) as [Hlater | Hfirst].
  - destruct (slices_cover _ _ ys _ row Hs) as (y & Hin & Hy).
    + unfold usableHeight, margin in *. lra.
    + exact Hrow.
    + exists y. split; [right; exact Hin | exact Hy].
  - exists margin. split; [left; reflexivity|]. unfold margin in *. lra.
Qed.

Lemma export_covers_image_witness :
  shownOn tallImage
    (offsets (log (snd (handleExportPDF tallImage 2 (start initialPage))))) 600.
Proof.
  apply (export_covers_image tallImage 2 initialPage 600).
  - reflexivity.
  - reflexivity.
  - reflexivity.
  - unfold enoughFuel, Qle. simpl. lia.
  - unfold Qle. simpl. lia.
  - unfold Qle. simpl. lia.
Defined.

Lemma slices_lowest (h ph : Q) (ys : list Q) :
  0 < ph ->
  forall hl, slices h ph hl ys ->
    forall y row, In y ys -> y + row <= ph ->
      row <= h - margin - hl + reach (length ys) ph.
Proof.
  intros Hp. induction ys as [|y0 ys IH]; intros hl Hs y row Hin Hrow.
  - destruct Hin.
  - destruct Hs as (Hpos & Hy & Hs). cbn [length reach].
    pose proof (reach_nonneg (length ys) ph Hp) as Hn.
    destruct Hin as [E | Hin].
    + subst y y0. lra.
    + pose proof (IH _ Hs y row Hin Hrow) as H. lra.
Qed.

Lemma slices_nonempty (h ph hl : Q) (ys : list Q) :
  0 < hl -> slices h ph hl ys -> (1 <= length ys)%nat.
Proof.
  intros Hpos Hs. destruct ys as [|y ys]; [simpl in Hs; lra | simpl; lia].
Qed.

Lemma reach_one (n : nat) (ph : Q) : 0 < ph -> (1 <= n)%nat -> ph <= reach n ph.
Proof.
  intros Hp Hn. destruct n as [|n]; [lia|].
  cbn [reach]. pose proof (reach_nonneg n ph Hp). lra.
Qed.

(** X16: what a successful export of more than one page can never show.
    With [n] pages after the first, no page shows a row that lies more than
    [n] page heights plus one page height less three margins below the top
    of the image.  When the rendered height exceeds that bound, which
    happens whenever the height left for the last page is within one margin
    of a full page, the bottom strip of the report is missing from the
    file. *)
Theorem export_cuts_below (env : Env) (fuel : nat) (p : Page) (row y : Q) :
  refCurrent env = true ->
  throwsAt env = None ->
  margin * 2 < pdfHeight env ->
  enoughFuel env fuel ->
  usableHeight env < imgRenderHeight env ->
  let doc := log (snd (handleExportPDF env fuel (start p))) in
  pdfHeight env - 3 * margin + reach (pageCount doc - 1) (pdfHeight env) < row ->
  In y (offsets doc) ->
  ~ onPage env y row.
Proof.
  intros Href Hq Hm Hfuel Htall doc.
  destruct (handleExportPDF_quiet env Hq fuel p Href Hfuel) as (ys & Hs & Hrun).
  subst doc. rewrite Hrun. cbn [snd log].
  rewrite offsets_document, pageCount_document.
  replace (S (length ys) - 1)%nat with (length ys) by lia.
  intros Hrow Hin [_ Hon].
  assert (Hp : 0 < pdfHeight env) by (unfold margin in Hm; lra).
  assert (Hn : (1 <= length ys)%nat).
  { refine (slices_nonempty _ _ _ ys _ Hs). lra. }
  pose proof (reach_one (length ys) (pdfHeight env) Hp Hn) as Hr.
  destruct Hin as [E | Hin].
  - subst y. unfold margin in *. lra.
  - pose proof (slices_lowest _ _ ys Hp _ Hs y row Hin Hon) as H.
    unfold usableHeight, margin in *. lra.
Qed.

Lemma export_cuts_below_witness :
  570 <= imgRenderHeight cutImage
  /\ pageCount (log (snd (handleExportPDF cutImage 1 (start initialPage)))) = 2%nat
  /\ Forall (fun y => ~ onPage cutImage y 570)
       (offsets (log (snd (handleExportPDF cutImage 1 (start initialPage))))).
Proof.
  assert (Hm : margin * 2 < pdfHeight cutImage) by reflexivity.
  assert (Hf : enoughFuel cutImage 1) by (unfold enoughFuel, Qle; simpl; lia).
  assert (Ht : usableHeight cutImage < imgRenderHeight cutImage) by reflexivity.
  assert (Hrow : pdfHeight cutImage - 3 * margin
                 + reach (pageCount (log (snd (handleExportPDF cutImage 1
                                                 (start initialPage)))) - 1)
                     (pdfHeight cutImage) < 570) by reflexivity.
  split; [unfold Qle; simpl; lia|]. split; [reflexivity|].
  apply Forall_forall. intros y Hin.
  exact (export_cuts_below cutImage 1 initialPage 570 y
           eq_refl eq_refl Hm Hf Ht Hrow Hin).
Defined.

Example pagination_of_a_canvas :
  imgRenderHeight tallCanvas == (5 # 2) * usableHeight tallCanvas
  /\ pageCount (log (snd (handleExportPDF tallCanvas 2 (start initialPage))))
     = 3%nat
  /\ map Qred (offsets (log (snd (handleExportPDF tallCanvas 2 (start initialPage)))))
     = [10; -267; -564].
Proof. repeat split. Qed.

Lemma quiet_document (env : Env) (ys : list Q) :
  existsb isSave (firstPage env ++ flat_map (pageOf env) ys) = false
  /\ existsb isNotice (firstPage env ++ flat_map (pageOf env) ys ++ [Save (fileName env)])
     = false.
Proof.
  rewrite !existsb_app. simpl.
  assert (H1 : existsb isSave (flat_map (pageOf env) ys) = false)
    by (induction ys as [|y ys IH]; simpl; auto).
  assert (H2 : existsb isNotice (flat_map (pageOf env) ys) = false)
    by (induction ys as [|y ys IH]; simpl; auto).
  rewrite H1, H2. split; reflexivity.
Qed.

(** X17: an export of a capture of positive width in which nothing
    throws saves exactly one file, as its very last step, under the name "Normate-Analysis-<jobId>.pdf"; it
    writes nothing to the console, raises no alert, and leaves the
    exporting flag [false]. *)
Theorem export_success_saves_once (env : Env) (fuel : nat) (p : Page) :
  refCurrent env = true ->
  throwsAt env = None ->
  0 < imgWidth env ->
  enoughFuel env fuel ->
  let r := handleExportPDF env fuel (start p) in
  fst r = Val tt
  /\ (exists before,
        log (snd r)
        = before ++ [Save (lit "Normate-Analysis-" ++ jobIdParam env ++ lit ".pdf")]
        /\ existsb isSave before = false)
  /\ existsb isNotice (log (snd r)) = false
  /\ isExporting (page (snd r)) = false.
Proof.
  intros Href Hq _ Hfuel r. subst r.
  destruct (handleExportPDF_quiet env Hq fuel p Href Hfuel) as (ys & _ & Hrun).
  rewrite Hrun. cbn [fst snd log page].
  destruct (quiet_document env ys) as [H1 H2].
  split; [reflexivity|]. split; [|split; [exact H2 | reflexivity]].
  exists (firstPage env ++ flat_map (pageOf env) ys).
  split; [rewrite <- app_assoc; reflexivity | exact H1].
Qed.

Lemma export_success_saves_once_witness :
  existsb isNotice (log (snd (handleExportPDF tallImage 2 (start initialPage))))
  = false
  /\ isExporting (page (snd (handleExportPDF tallImage 2 (start initialPage))))
     = false.
Proof.
  assert (Hf : enoughFuel tallImage 2) by (unfold enoughFuel, Qle; simpl; lia).
  destruct (export_success_saves_once tallImage 2 initialPage eq_refl eq_refl
              eq_refl Hf)
    as (_ & _ & H1 & H2).
  split; [exact H1 | exact H2].
Defined.

Lemma call_ends (env : Env) (e : ExportEvent) : ends (call env e).
Proof.
  intros s. unfold call.
  destruct (throwsAt env) as [k|]; [destruct (calls s =? k)%nat|];
    cbn [fst]; discriminate.
Qed.

Lemma bind_ends (m k : M unit) : ends m -> ends k -> ends (m ;; k).
Proof.
  intros Hm Hk s. unfold bind. specialize (Hm s).
  destruct (m s) as [[a| |] s']; cbn [fst] in *;
    [apply Hk | discriminate | congruence].
Qed.

Lemma addPages_ends (env : Env) (fuel : nat) :
  forall hl, hl <= reach fuel (pdfHeight env) -> ends (addPages env fuel hl).
Proof.
  induction fuel as [|fuel IH]; intros hl Hr; cbn [addPages];
    destruct (Qltb 0 hl) eqn:E; try (intros s; cbn [ret fst]; discriminate).
  - apply Qltb_true in E. simpl in Hr. lra.
  - repeat (apply bind_ends; [apply call_ends|]).
    apply IH. cbn [reach] in Hr. lra.
Qed.

Lemma exportBody_ends (env : Env) (fuel : nat) :
  enoughFuel env fuel -> ends (exportBody env fuel).
Proof.
  intros H. unfold exportBody.
  repeat (apply bind_ends; [apply call_ends|]).
  apply bind_ends; [apply addPages_ends; exact H | apply call_ends].
Qed.

(** X18: the export always comes back and never leaves the page stuck.
    For a capture of positive width (or with no report on the page) and
    with fuel enough for the page loop, whichever call throws or none, the
    handler returns normally (it never rethrows); with a report on the page
    the only state it has written is the exporting flag, which is [false]
    at the end, and without one it has touched nothing at all. *)
Theorem export_always_settles (env : Env) (fuel : nat) (p : Page) :
  (refCurrent env = true -> 0 < imgWidth env) ->
  enoughFuel env fuel ->
  let r := handleExportPDF env fuel (start p) in
  fst r = Val tt
  /\ page (snd r) = (if refCurrent env then setIsExporting false p else p)
  /\ (if refCurrent env then True else log (snd r) = []).
Proof.
  intros _ Hfuel r. subst r. unfold handleExportPDF.
  destruct (refCurrent env); cbn [negb]; [|repeat split].
  pose proof (exportBody_ends env fuel Hfuel (start (setIsExporting true p)))
    as Hend.
  pose proof (exportBody_keepsPage env fuel (start (setIsExporting true p)))
    as Hpage.
  change ((update (setIsExporting true);;
           try_catch_finally (exportBody env fuel) exportHandler
             (update (setIsExporting false))) (start p))
    with (try_catch_finally (exportBody env fuel) exportHandler
            (update (setIsExporting false)) (start (setIsExporting true p))).
  unfold try_catch_finally.
  destruct (exportBody env fuel (start (setIsExporting true p)))
    as [[a| |] s1]; cbn [fst snd] in *; [| |congruence].
  - unfold update. cbn [fst snd page]. rewrite Hpage. repeat split.
  - unfold exportHandler, bind, emit, update. cbn [fst snd page].
    rewrite Hpage. repeat split.
Qed.

Lemma export_always_settles_witness :
  fst (handleExportPDF compositionThrows 2 (start initialPage)) = Val tt
  /\ page (snd (handleExportPDF compositionThrows 2 (start initialPage)))
     = setIsExporting false initialPage.
Proof.
  assert (Hf : enoughFuel compositionThrows 2)
    by (unfold enoughFuel, Qle; simpl; lia).
  destruct (export_always_settles compositionThrows 2 initialPage
              (fun _ => eq_refl) Hf)
    as (H1 & H2 & _).
  split; [exact H1 | exact H2].
Defined.

End ExportExtra.

(** ** The submit form *)

Module HomeFacts.
Import Js Api JsFacts HomePage.

Lemma trimStart_blank_app (a s : jsstring) :
  blank a = true -> trimStart (a ++ s) = trimStart s.
Proof.
  induction a as [|c a IH]; simpl; [reflexivity|].
  intros H. apply andb_true_iff in H. destruct H as [Hc Ha].
  rewrite Hc. apply IH, Ha.
Qed.

Lemma trimStart_app_solid (s b : jsstring) :
  blank s = false -> trimStart (s ++ b) = trimStart s ++ b.
Proof.
  induction s as [|c s IH]; simpl; [discriminate|].
  destruct (isWhiteSpace c); simpl; [exact IH | reflexivity].
Qed.

Lemma trimEnd_app_blank (s b : jsstring) :
  blank b = true -> trimEnd (s ++ b) = trimEnd s.
Proof.
  intros H. unfold trimEnd. rewrite rev_app_distr, trimStart_blank_app;
    [reflexivity | rewrite blank_rev; exact H].
Qed.

(** White space around a string does not survive [trim]. *)
Lemma trim_pad (a s b : jsstring) :
  blank a = true -> blank b = true -> trim (a ++ s ++ b) = trim s.
Proof.
  intros Ha Hb. unfold trim. rewrite trimStart_blank_app by exact Ha.
  destruct (blank s) eqn:Hs.
  - assert (E : trimStart (s ++ b) = []).
    { apply trimStart_nil_iff. rewrite blank_app, Hs, Hb. reflexivity. }
    apply trimStart_nil_iff in Hs. rewrite E, Hs. reflexivity.
  - rewrite trimStart_app_solid by exact Hs. apply trimEnd_app_blank, Hb.
Qed.

Lemma ltb_length_nonempty (A : Type) (l : list A) :
  (0 <? length l) = true -> l <> [].
Proof. destruct l; [discriminate | discriminate]. Qed.

Lemma canSubmit_valid (h : Home) :
  canSubmit h = true -> valid (quantFiles h, qualFiles h, context h).
Proof.
  unfold canSubmit, canSubmitWith, valid. intros H.
  apply andb_true_iff in H. destruct H as [H H4].
  apply andb_true_iff in H. destruct H as [H H3].
  apply andb_true_iff in H. destruct H as [H1 H2].
  apply Nat.ltb_lt in H3. apply Nat.ltb_lt in H4.
  split; [exact (ltb_length_nonempty _ _ H1)|].
  split; [exact (ltb_length_nonempty _ _ H2)|].
  split; [exact H3 | exact H4].
Qed.

Lemma orderly_step (h : Home) (e : HomeEvent) :
  orderly h -> orderly (homeStep h e).
Proof.
  intros [Hv Hc]. destruct e as [v|v|v| |r]; cbn [homeStep].
  - split; assumption.
  - split; assumption.
  - split; assumption.
  - unfold handleAnalyze.
    destruct (canSubmit h) eqn:C; cbn [negb orb]; [|split; assumption].
    destruct (isSubmitting (submitState h)) eqn:S;
      [unfold orderly; rewrite S; split; assumption|].
    unfold orderly. cbn [submitted answered submitState isSubmitting].
    split.
    + apply Forall_app. split; [exact Hv|].
      constructor; [apply canSubmit_valid, C | constructor].
    + rewrite length_app. simpl. lia.
  - destruct (isSubmitting (submitState h)) eqn:S;
      [|unfold orderly; rewrite S; split; assumption].
    unfold handleAnalyze_resume.
    destruct (submitAnalysis r) as [job|err]; unfold orderly;
      cbn [submitted answered submitState isSubmitting];
      (split; [exact Hv | lia]).
Qed.

(** X19: the checks of the form cannot be got round.  Whatever the user
    does, in whatever order, every call of [submitAnalysis] carried at least
    one quantitative and one qualitative file, a research question of more
    than 10 characters and a product description of more than 5, both
    counted after trimming; and at most one call is unsettled at any time,
    namely while the form is in the submitting state. *)
Theorem form_submits_only_valid_input (evs : list HomeEvent) :
  let h := homeRun evs initialHome in
  Forall valid (submitted h)
  /\ length (submitted h)
     = answered h + (if isSubmitting (submitState h) then 1 else 0).
Proof.
  assert (H : forall l h0, orderly h0 -> orderly (homeRun l h0)).
  { induction l as [|e l IH]; intros h0 H0; [exact H0|].
    apply (IH (homeStep h0 e)), orderly_step, H0. }
  apply (H evs initialHome). split; [constructor | reflexivity].
Qed.

(** X20: the form counts trimmed text only.  White space put before or
    after the research question never changes whether the form can be
    submitted, and a research question of white space alone never lets it
    through. *)
Theorem canSubmit_ignores_padding (quant qual : list File)
    (ctx : AnalysisContext) (a b : jsstring) :
  blank a = true ->
  blank b = true ->
  canSubmitWith quant qual (padded a b ctx) = canSubmitWith quant qual ctx
  /\ (blank (researchQuestion ctx) = true ->
      canSubmitWith quant qual (padded a b ctx) = false).
Proof.
  intros Ha Hb.
  assert (E : canSubmitWith quant qual (padded a b ctx)
              = canSubmitWith quant qual ctx).
  { unfold canSubmitWith, padded. cbn [researchQuestion productDescription].
    rewrite trim_pad by assumption. reflexivity. }
  split; [exact E|].
  intros Hq. rewrite E. unfold canSubmitWith.
  apply trim_nil_iff in Hq. rewrite Hq. simpl.
  rewrite andb_false_r. reflexivity.
Qed.

Lemma canSubmit_ignores_padding_witness :
  canSubmitWith [aFile] [aFile] (padded (lit "  ") (lit " ") aContext)
  = canSubmitWith [aFile] [aFile] aContext.
Proof.
  destruct (canSubmit_ignores_padding [aFile] [aFile] aContext
              (lit "  ") (lit " ") eq_refl eq_refl) as [H _].
  exact H.
Defined.

Example a_valid_form_submits_once :
  let h := homeRun [QuantChanged [aFile]; QualChanged [aFile];
                    ContextChanged aContext; AnalyzeClicked; AnalyzeClicked]
             initialHome in
  submitted h = [([aFile], [aFile], aContext)]
  /\ submitState h = submitting.
Proof. split; reflexivity. Qed.

End HomeFacts.

(** ** The history page *)

Module HistoryFacts.
Import Js Api HistoryPage.

Lemma filter_twice (A : Type) (f g : A -> bool) (l : list A) :
  filter f (filter g l) = filter (fun x => g x && f x) l.
Proof.
  induction l as [|x l IH]; simpl; [reflexivity|].
  destruct (g x); simpl; [destruct (f x); rewrite IH; reflexivity | exact IH].
Qed.

Lemma settleAll_jobs (rs : list (jsstring * bool)) :
  forall h, jobs (settleAll rs h) = filter (kept rs) (jobs h).
Proof.
  induction rs as [|[id ok] rs IH]; intros h.
  - simpl. unfold kept. simpl.
    induction (jobs h) as [|j l IHl]; simpl; [reflexivity | rewrite <- IHl; reflexivity].
  - change (settleAll ((id, ok) :: rs) h)
      with (settleAll rs (handleDelete_resume id ok h)).
    rewrite IH. cbn [handleDelete_resume jobs].
    destruct ok.
    + rewrite filter_twice. apply filter_ext. intros j.
      unfold kept. simpl. rewrite negb_orb. reflexivity.
    + apply filter_ext. intros j. unfold kept. reflexivity.
Qed.

Lemma str_eqb_eq (a b : jsstring) : str_eqb a b = true <-> a = b.
Proof.
  revert b. induction a as [|x a IH]; intros [|y b]; simpl;
    try (split; [discriminate | discriminate]); [tauto|].
  rewrite andb_true_iff, N.eqb_eq, IH. split.
  - intros [H1 H2]. congruence.
  - intros H. inversion H. auto.
Qed.

(** X21: deletions on the history page compose.  However many deletions
    settle and in whatever order, overlapping or not, the list shown is the
    list from before without the jobs whose deletion succeeded, the others
    in their old order; a deletion that failed removes nothing; two
    settlements give the same list in either order; and a job is in the new
    list exactly when it was in the old one and no successful deletion named
    its id. *)
Theorem deletions_compose (rs : list (jsstring * bool)) (h : History)
    (a b : jsstring) (oka okb : bool) (j : HistoryJob) :
  jobs (settleAll rs h) = filter (kept rs) (jobs h)
  /\ jobs (handleDelete_resume a oka (handleDelete_resume b okb h))
     = jobs (handleDelete_resume b okb (handleDelete_resume a oka h))
  /\ jobs (handleDelete_resume a false h) = jobs h
  /\ (In j (jobs (settleAll rs h)) <->
      In j (jobs h) /\ forall id, In (id, true) rs -> job_id j <> id).
Proof.
  split; [apply settleAll_jobs|]. split; [|split; [reflexivity|]].
  - change (jobs (settleAll [(b, okb); (a, oka)] h)
            = jobs (settleAll [(a, oka); (b, okb)] h)).
    rewrite !settleAll_jobs. apply filter_ext. intros x.
    unfold kept. simpl. rewrite !orb_false_r. f_equal. apply orb_comm.
  - rewrite settleAll_jobs, filter_In. unfold kept.
    split; intros [Hin Hk]; (split; [exact Hin|]).
    + intros id Hid E. apply negb_true_iff in Hk.
      assert (X : existsb (fun r => snd r && str_eqb (job_id j) (fst r)) rs = true).
      { apply existsb_exists. exists (id, true). split; [exact Hid|].
        simpl. apply str_eqb_eq, E. }
      congruence.
    + apply negb_true_iff.
      destruct (existsb (fun r => snd r && str_eqb (job_id j) (fst r)) rs) eqn:X;
        [|reflexivity].
      apply existsb_exists in X. destruct X as ([id ok] & Hid & Hx).
      simpl in Hx. apply andb_true_iff in Hx. destruct Hx as [Hok He].
      subst ok. apply str_eqb_eq in He. exfalso. exact (Hk id Hid He).
Qed.

End HistoryFacts.
